(** * Vaccination card API: dose sequencing and card views

    A shallow embedding of [main.py]: the domain enumerations, the three
    tables, the helpers [ensure_dose_allowed] and [ensure_dose_order], the
    endpoints that change the tables, and the two card views of [get_card].

    The database session is a state that every endpoint threads; an endpoint
    either returns its response or raises.  An [HTTPException] is a typed
    rejection; any other exception is a failure of the request. *)

From Stdlib Require Import ZArith String List Sorting.Sorted.
From stdpp Require Import base option list gmap strings sorting.

Local Open Scope Z_scope.

(** ** Domain *)

(** [class DoseEnum(str, Enum)] *)
Inductive DoseEnum := D1 | D2 | D3 | R1 | R2.

(** [class GenderEnum(str, Enum)] *)
Inductive GenderEnum := M_ | F_ | O_.

Module Dose.
(** [dose.value] *)
Definition value (d : DoseEnum) : string :=
  match d with
  | D1 => "D1" | D2 => "D2" | D3 => "D3" | R1 => "R1" | R2 => "R2"
  end.

(** [DoseEnum(s)]: the member whose value is [s]; Python raises
    [ValueError] when there is none. *)
Definition of_value (s : string) : option DoseEnum :=
  if String.eqb s "D1" then Some D1
  else if String.eqb s "D2" then Some D2
  else if String.eqb s "D3" then Some D3
  else if String.eqb s "R1" then Some R1
  else if String.eqb s "R2" then Some R2
  else None.

Definition to_nat (d : DoseEnum) : nat :=
  match d with D1 => 0 | D2 => 1 | D3 => 2 | R1 => 3 | R2 => 4 end%nat.

Definition of_nat (n : nat) : DoseEnum :=
  match n with 0 => D1 | 1 => D2 | 2 => D3 | 3 => R1 | _ => R2 end%nat.
End Dose.

Module Gender.
Definition value (g : GenderEnum) : string :=
  match g with M_ => "M" | F_ => "F" | O_ => "O" end.

(** [GenderEnum(s)] *)
Definition of_value (s : string) : option GenderEnum :=
  if String.eqb s "M" then Some M_
  else if String.eqb s "F" then Some F_
  else if String.eqb s "O" then Some O_
  else None.
End Gender.

#[global] Instance DoseEnum_eq_dec : EqDecision DoseEnum.
Proof. solve_decision. Defined.

#[global] Instance DoseEnum_countable : Countable DoseEnum.
Proof.
  apply (inj_countable' Dose.to_nat Dose.of_nat). intros []; reflexivity.
Defined.

(** [DOSE_ORDER = [DoseEnum.D1, DoseEnum.D2, DoseEnum.D3, DoseEnum.R1, DoseEnum.R2]] *)
Definition DOSE_ORDER : list DoseEnum := [D1; D2; D3; R1; R2].

(** [enumerate(l)] *)
Definition enumerate {A} (l : list A) : list (nat * A) := imap (λ i x, (i, x)) l.

(** [ORDER_INDEX = {d: i for i, d in enumerate(DOSE_ORDER)}] *)
Definition ORDER_INDEX : gmap DoseEnum nat :=
  foldl (λ m '(i, d), <[d := i]> m) ∅ (enumerate DOSE_ORDER).

(** ** Stored JSON text

    The column [allowed_doses] is a [Text] that the program only ever reads
    through [json.loads] and writes through [json.dumps].  A JSON document
    is kept as the value it denotes. *)
#[local] Unset Elimination Schemes.
Inductive json :=
| JNull
| JBool (b : bool)
| JNumber (literal : string)
| JString (s : string)
| JArray (items : list json)
| JObject (members : list (string * json)).
#[local] Set Elimination Schemes.

(** A text is kept as what [json.loads] makes of it: the value it decodes
    to, or the raw characters when decoding raises. *)
Inductive text :=
| Document (j : json)
| Undecodable (raw : string).

(** [json.loads(t)]; [None] stands for a raised exception. *)
Definition json_loads (t : text) : option json :=
  match t with Document j => Some j | Undecodable _ => None end.

(** [json.dumps(j)] *)
Definition json_dumps (j : json) : text := Document j.

(** A dated value of type [date] is kept as its ordinal day; a [datetime]
    as a count of microseconds.  Both orders are the order of [Z]. *)
Definition date := Z.
Definition datetime := Z.

(** ** Tables *)

Module Vaccine.
Record t := mk {
  id : string;
  name : string;
  code : string;
  allowed_doses : text
}.
End Vaccine.

Module Person.
Record t := mk {
  id : string;
  name : string;
  document : string;
  sex : string;
  age : Z
}.
End Person.

Module Vaccination.
Record t := mk {
  id : string;
  person_id : string;
  vaccine_id : string;
  dose : string;
  applied_at : date;
  lot : option string;
  location : option string;
  created_at : datetime
}.
End Vaccination.

(** The three tables, each in the order its rows were inserted. *)
Record DB := mkDB {
  people : list Person.t;
  vaccines : list Vaccine.t;
  vaccinations : list Vaccination.t
}.

Definition empty_db : DB := mkDB [] [] [].

(** ** Exceptions and the session monad *)

(** The [detail] of each [HTTPException] the program raises, with the
    values its message is formatted from. *)
Inductive detail :=
| Invalid_or_missing_API_Key
| Dose_nao_permitida (dose : DoseEnum) (vac_name : string)
| Ordem_invalida (dose : DoseEnum) (requer : DoseEnum)
| code_ja_existe
| document_ja_existe
| Vacina_nao_encontrada
| Pessoa_nao_encontrada
| Registro_nao_encontrado
| Dose_ja_registrada.

Inductive exn :=
| HTTPException (status_code : nat) (d : detail)
| IntegrityError
| TypeError
| ValueError
| KeyError.

Inductive outcome (A : Type) :=
| Return (a : A)
| Raise (e : exn).
Arguments Return {A} a.
Arguments Raise {A} e.

(** Code that does not touch the session returns or raises. *)
#[global] Instance outcome_ret : MRet outcome := λ A a, Return a.
#[global] Instance outcome_bind : MBind outcome := λ A B f o,
  match o with
  | Return a => f a
  | Raise e => Raise e
  end.
#[global] Instance outcome_throw : MThrow exn outcome := λ A e, Raise e.

(** A request handler runs against the session and leaves a session. *)
Definition M (A : Type) : Type := DB → outcome A * DB.

#[global] Instance M_ret : MRet M := λ A a db, (Return a, db).
#[global] Instance M_bind : MBind M := λ A B f m db,
  match m db with
  | (Return a, db') => f a db'
  | (Raise e, db') => (Raise e, db')
  end.
#[global] Instance M_throw : MThrow exn M := λ A e db, (Raise e, db).

Abbreviation raise := mthrow (only parsing).

(** Read the tables. *)
Definition query : M DB := λ db, (Return db, db).

(** Run code that does not touch the session. *)
Definition lift {A} (o : outcome A) : M A := λ db, (o, db).

(** [x] when [o] is [Some x], [e] raised otherwise. *)
Definition or_raise {A} (o : option A) (e : exn) : outcome A :=
  match o with Some x => Return x | None => Raise e end.

(** [[f(x) for x in l]] where [f] may raise. *)
Fixpoint for_each {A B} (f : A → outcome B) (l : list A) : outcome (list B) :=
  match l with
  | [] => mret []
  | x :: l' => y ← f x; ys ← for_each f l'; mret (y :: ys)
  end.

(** ** Python membership

    [x in container] for a string [x] and a decoded JSON value. *)
Fixpoint substring_of (x s : string) : bool :=
  String.prefix x s
  || match s with
     | EmptyString => false
     | String _ s' => substring_of x s'
     end.

Definition eq_str (x : string) (j : json) : bool :=
  match j with JString s => String.eqb s x | _ => false end.

Definition py_in (x : string) (container : json) : outcome bool :=
  match container with
  | JArray items => Return (existsb (eq_str x) items)
  | JString s => Return (substring_of x s)
  | JObject members => Return (existsb (λ kv, String.eqb (fst kv) x) members)
  | JNull | JBool _ | JNumber _ => Raise TypeError
  end.

(** [iter(container)]: the items a [for] sees (of a string, its
    characters, here one per byte; of an object, its keys). *)
Definition py_iter (container : json) : outcome (list json) :=
  match container with
  | JArray items => Return items
  | JString s => Return ((λ c, JString (String c EmptyString)) <$> list_ascii_of_string s)
  | JObject members => Return ((λ kv, JString (fst kv)) <$> members)
  | JNull | JBool _ | JNumber _ => Raise TypeError
  end.

(** ** Model methods *)

(** [[d.value for d in DOSE_ORDER]] as a JSON array. *)
Definition values_of (doses : list DoseEnum) : json :=
  JArray ((λ d, JString (Dose.value d)) <$> doses).

(** [Vaccine.allowed_list] *)
Definition allowed_list (self : Vaccine.t) : json :=
  match json_loads (Vaccine.allowed_doses self) with
  | Some j => j
  | None => values_of DOSE_ORDER
  end.

(** ** Schemas *)

Module VaccineIn.
Record t := mk {
  name : string;
  code : string;
  allowed_doses : option (list DoseEnum)
}.
End VaccineIn.

Module VaccineOut.
Record t := mk {
  id : string;
  name : string;
  code : string;
  allowed_doses : list DoseEnum
}.
End VaccineOut.

Module PersonIn.
Record t := mk {
  name : string;
  document : string;
  sex : GenderEnum;
  age : Z
}.
End PersonIn.

Module PersonOut.
Record t := mk {
  id : string;
  name : string;
  document : string;
  sex : GenderEnum;
  age : Z
}.
End PersonOut.

Module VaccinationIn.
Record t := mk {
  person_id : string;
  vaccine_id : string;
  dose : DoseEnum;
  applied_at : date;
  lot : option string;
  location : option string
}.
End VaccinationIn.

Module VaccinationOut.
Record t := mk {
  id : string;
  person_id : string;
  vaccine_id : string;
  dose : DoseEnum;
  applied_at : date;
  lot : option string;
  location : option string;
  created_at : datetime
}.
End VaccinationOut.

Module CardEntry.
Record t := mk {
  record_id : string;
  dose : DoseEnum;
  applied_at : date;
  lot : option string;
  location : option string
}.
End CardEntry.

Module CardVaccineBlock.
Record t := mk {
  vaccine_id : string;
  vaccine_name : string;
  entries : list CardEntry.t
}.
End CardVaccineBlock.

Module CardListOut.
Record t := mk {
  person : PersonOut.t;
  vaccines : list CardVaccineBlock.t
}.
End CardListOut.

Module MatrixCol.
Record t := mk {
  vaccine_id : string;
  vaccine_name : string
}.
End MatrixCol.

Module MatrixCell.
Record t := mk {
  record_id : string;
  applied_at : date;
  dose : DoseEnum
}.
End MatrixCell.

Module CardMatrixOut.
Record t := mk {
  rows : list DoseEnum;
  cols : list MatrixCol.t;
  grid : list (list (option MatrixCell.t))
}.
End CardMatrixOut.

(** What [get_card] returns. *)
Inductive Card :=
| CardList (out : CardListOut.t)
| CardMatrix (out : CardMatrixOut.t).

(** [DoseEnum(s)] and [GenderEnum(s)] as computations. *)
Definition DoseEnum_ (s : string) : outcome DoseEnum :=
  or_raise (Dose.of_value s) ValueError.
Definition GenderEnum_ (s : string) : outcome GenderEnum :=
  or_raise (Gender.of_value s) ValueError.

(** [DoseEnum(d)] for an item of a decoded list: only a string can equal a
    member's value. *)
Definition DoseEnum_of_json (j : json) : outcome DoseEnum :=
  match j with
  | JString s => DoseEnum_ s
  | _ => raise ValueError
  end.

(** [VaccineOut.from_model] *)
Definition VaccineOut_from_model (v : Vaccine.t) : outcome VaccineOut.t :=
  items ← py_iter (allowed_list v);
  allowed ← for_each DoseEnum_of_json items;
  mret (VaccineOut.mk (Vaccine.id v) (Vaccine.name v) (Vaccine.code v) allowed).

(** [PersonOut(id=p.id, name=p.name, document=p.document, sex=GenderEnum(p.sex), age=p.age)] *)
Definition PersonOut_of (p : Person.t) : outcome PersonOut.t :=
  sex ← GenderEnum_ (Person.sex p);
  mret (PersonOut.mk (Person.id p) (Person.name p) (Person.document p) sex (Person.age p)).

(** [VaccinationOut(id=rec.id, ..., dose=DoseEnum(rec.dose), ...)] *)
Definition VaccinationOut_of (rec : Vaccination.t) : outcome VaccinationOut.t :=
  dose ← DoseEnum_ (Vaccination.dose rec);
  mret (VaccinationOut.mk (Vaccination.id rec) (Vaccination.person_id rec)
          (Vaccination.vaccine_id rec) dose (Vaccination.applied_at rec)
          (Vaccination.lot rec) (Vaccination.location rec) (Vaccination.created_at rec)).

(** ** Session operations *)

(** [db.get(Person, pid)] *)
Definition db_get_Person (pid : string) : M (option Person.t) :=
  db ← query; mret (find (λ p, bool_decide (Person.id p = pid)) (people db)).

(** [db.get(Vaccine, vid)] *)
Definition db_get_Vaccine (vid : string) : M (option Vaccine.t) :=
  db ← query; mret (find (λ v, bool_decide (Vaccine.id v = vid)) (vaccines db)).

(** [db.get(Vaccination, rid)] *)
Definition db_get_Vaccination (rid : string) : M (option Vaccination.t) :=
  db ← query; mret (find (λ r, bool_decide (Vaccination.id r = rid)) (vaccinations db)).

(** The columns of [UniqueConstraint("person_id", "vaccine_id", "dose")]. *)
Definition uq_person_vaccine_dose (r : Vaccination.t) : string * string * string :=
  (Vaccination.person_id r, Vaccination.vaccine_id r, Vaccination.dose r).

(** [db.add(v); db.commit(); db.refresh(v)] for a vaccine: the primary key
    and the unique [code] are checked by the database. *)
Definition add_Vaccine (v : Vaccine.t) : M unit := λ db,
  if bool_decide ((Vaccine.id v ∉ Vaccine.id <$> vaccines db)
                  ∧ (Vaccine.code v ∉ Vaccine.code <$> vaccines db))
  then (Return (), mkDB (people db) (vaccines db ++ [v]) (vaccinations db))
  else (Raise IntegrityError, db).

(** The same for a person: primary key and unique [document]. *)
Definition add_Person (p : Person.t) : M unit := λ db,
  if bool_decide ((Person.id p ∉ Person.id <$> people db)
                  ∧ (Person.document p ∉ Person.document <$> people db))
  then (Return (), mkDB (people db ++ [p]) (vaccines db) (vaccinations db))
  else (Raise IntegrityError, db).

(** The same for a dose record: primary key, the unique triple, and the two
    foreign keys ([PRAGMA foreign_keys=ON]). *)
Definition add_Vaccination (rec : Vaccination.t) : M unit := λ db,
  if bool_decide ((Vaccination.id rec ∉ Vaccination.id <$> vaccinations db)
                  ∧ (uq_person_vaccine_dose rec ∉ uq_person_vaccine_dose <$> vaccinations db)
                  ∧ (Vaccination.person_id rec ∈ Person.id <$> people db)
                  ∧ (Vaccination.vaccine_id rec ∈ Vaccine.id <$> vaccines db))
  then (Return (), mkDB (people db) (vaccines db) (vaccinations db ++ [rec]))
  else (Raise IntegrityError, db).

(** [db.delete(v); db.commit()]: the row goes, and with it every dose record
    that refers to it ([cascade="all, delete-orphan"], [ondelete="CASCADE"]). *)
Definition delete_Vaccine (v : Vaccine.t) : M unit := λ db,
  (Return (),
   mkDB (people db)
     (filter (λ v', Vaccine.id v' ≠ Vaccine.id v) (vaccines db))
     (filter (λ r, Vaccination.vaccine_id r ≠ Vaccine.id v) (vaccinations db))).

Definition delete_Person (p : Person.t) : M unit := λ db,
  (Return (),
   mkDB (filter (λ p', Person.id p' ≠ Person.id p) (people db))
     (vaccines db)
     (filter (λ r, Vaccination.person_id r ≠ Person.id p) (vaccinations db))).

Definition delete_Vaccination (rec : Vaccination.t) : M unit := λ db,
  (Return (),
   mkDB (people db) (vaccines db)
     (filter (λ r, Vaccination.id r ≠ Vaccination.id rec) (vaccinations db))).

(** [db.query(Vaccination).filter_by(person_id=person_id, vaccine_id=vaccine_id).all()] *)
Definition history (person_id vaccine_id : string) : M (list Vaccination.t) :=
  db ← query;
  mret (filter (λ r, Vaccination.person_id r = person_id
                     ∧ Vaccination.vaccine_id r = vaccine_id) (vaccinations db)).

(** ** Helpers *)

(** [ensure_dose_allowed] *)
Definition ensure_dose_allowed (vac : Vaccine.t) (dose : DoseEnum) : outcome unit :=
  allowed ← py_in (Dose.value dose) (allowed_list vac);
  if negb allowed
  then raise (HTTPException 422 (Dose_nao_permitida dose (Vaccine.name vac)))
  else mret ().

(** The loop [for d in prev: if d.value not in existing: raise ...] *)
Fixpoint require_previous (dose : DoseEnum) (existing : gset string)
    (prev : list DoseEnum) : M unit :=
  match prev with
  | [] => mret ()
  | d :: prev' =>
      if bool_decide (Dose.value d ∉ existing)
      then raise (HTTPException 409 (Ordem_invalida dose d))
      else require_previous dose existing prev'
  end.

(** [ensure_dose_order] *)
Definition ensure_dose_order (person_id vaccine_id : string) (dose : DoseEnum) : M unit :=
  idx ← lift (or_raise (ORDER_INDEX !! dose) KeyError);
  if bool_decide (idx = 0%nat) then mret () else
  let prev := take idx DOSE_ORDER in
  rows ← history person_id vaccine_id;
  let existing : gset string := list_to_set (Vaccination.dose <$> rows) in
  require_previous dose existing prev.

(** ** Endpoints: vaccines *)

(** [payload.allowed_doses or DOSE_ORDER]: an absent or empty list is falsy. *)
Definition or_DOSE_ORDER (allowed_doses : option (list DoseEnum)) : list DoseEnum :=
  match allowed_doses with
  | Some (d :: ds) => d :: ds
  | Some [] | None => DOSE_ORDER
  end.

(** [POST /vaccines]; [uuid4] is the identifier drawn for the new row. *)
Definition create_vaccine (payload : VaccineIn.t) (uuid4 : string) : M VaccineOut.t :=
  db ← query;
  if bool_decide (is_Some (head (filter (λ v, Vaccine.code v = VaccineIn.code payload) (vaccines db))))
  then raise (HTTPException 409 code_ja_existe) else
  let allowed := values_of (or_DOSE_ORDER (VaccineIn.allowed_doses payload)) in
  let v := Vaccine.mk uuid4 (VaccineIn.name payload) (VaccineIn.code payload) (json_dumps allowed) in
  add_Vaccine v;;
  lift (VaccineOut_from_model v).

(** [DELETE /vaccines/{vid}] *)
Definition delete_vaccine (vid : string) : M unit :=
  v ← db_get_Vaccine vid;
  match v with
  | None => raise (HTTPException 404 Vacina_nao_encontrada)
  | Some v => delete_Vaccine v
  end.

(** ** Endpoints: people *)

(** [POST /people] *)
Definition create_person (payload : PersonIn.t) (uuid4 : string) : M PersonOut.t :=
  db ← query;
  if bool_decide (is_Some (head (filter (λ p, Person.document p = PersonIn.document payload) (people db))))
  then raise (HTTPException 409 document_ja_existe) else
  let p := Person.mk uuid4 (PersonIn.name payload) (PersonIn.document payload)
             (Gender.value (PersonIn.sex payload)) (PersonIn.age payload) in
  add_Person p;;
  lift (PersonOut_of p).

(** [DELETE /people/{pid}] *)
Definition delete_person (pid : string) : M unit :=
  p ← db_get_Person pid;
  match p with
  | None => raise (HTTPException 404 Pessoa_nao_encontrada)
  | Some p => delete_Person p
  end.

(** ** Endpoints: vaccinations *)

(** [POST /vaccinations]; [uuid4] and [utcnow] are the column defaults drawn
    for the new row. *)
Definition create_vaccination (payload : VaccinationIn.t) (enforce_sequence : bool)
    (uuid4 : string) (utcnow : datetime) : M VaccinationOut.t :=
  p ← db_get_Person (VaccinationIn.person_id payload);
  match p with
  | None => raise (HTTPException 404 Pessoa_nao_encontrada)
  | Some p =>
  v ← db_get_Vaccine (VaccinationIn.vaccine_id payload);
  match v with
  | None => raise (HTTPException 404 Vacina_nao_encontrada)
  | Some v =>
      lift (ensure_dose_allowed v (VaccinationIn.dose payload));;
      (if enforce_sequence
       then ensure_dose_order (VaccinationIn.person_id payload)
              (VaccinationIn.vaccine_id payload) (VaccinationIn.dose payload)
       else mret ());;
      db ← query;
      let dup := head (filter (λ r, Vaccination.person_id r = VaccinationIn.person_id payload
                                    ∧ Vaccination.vaccine_id r = VaccinationIn.vaccine_id payload
                                    ∧ Vaccination.dose r = Dose.value (VaccinationIn.dose payload))
                         (vaccinations db)) in
      if bool_decide (is_Some dup) then raise (HTTPException 409 Dose_ja_registrada) else
      let rec := Vaccination.mk uuid4
                   (VaccinationIn.person_id payload)
                   (VaccinationIn.vaccine_id payload)
                   (Dose.value (VaccinationIn.dose payload))
                   (VaccinationIn.applied_at payload)
                   (VaccinationIn.lot payload)
                   (VaccinationIn.location payload)
                   utcnow in
      add_Vaccination rec;;
      lift (VaccinationOut_of rec)
  end
  end.

(** [DELETE /vaccinations/{rid}] *)
Definition delete_vaccination (rid : string) : M unit :=
  rec ← db_get_Vaccination rid;
  match rec with
  | None => raise (HTTPException 404 Registro_nao_encontrado)
  | Some rec => delete_Vaccination rec
  end.

(** ** Endpoints: card views *)

(** [.order_by(Vaccination.applied_at)].  SQL leaves the relative order of
    rows with equal dates open (SQLite may return them in the order of the
    index on person, vaccine and dose); the stable sort used here is one
    such order, and the statements about the list view use only that the
    rows come out as a permutation in ascending order of the date. *)
Definition applied_at_le (r1 r2 : Vaccination.t) : Prop :=
  Vaccination.applied_at r1 ≤ Vaccination.applied_at r2.

#[global] Instance applied_at_le_dec : RelDecision applied_at_le.
Proof. intros r1 r2. unfold applied_at_le, date. apply _. Defined.

Definition order_by_applied_at : list Vaccination.t → list Vaccination.t :=
  merge_sort applied_at_le.

(** [.order_by(Vaccine.name)]: names compare byte by byte. *)
Definition name_le (v1 v2 : Vaccine.t) : Prop :=
  String.leb (Vaccine.name v1) (Vaccine.name v2) = true.

#[global] Instance name_le_dec : RelDecision name_le.
Proof. intros v1 v2. unfold name_le. apply _. Defined.

Definition order_by_name : list Vaccine.t → list Vaccine.t := merge_sort name_le.

(** [bucket.setdefault(rec.vaccine_id, []).append(rec)] on a dictionary kept
    in insertion order. *)
Fixpoint setdefault_append (bucket : list (string * list Vaccination.t))
    (rec : Vaccination.t) : list (string * list Vaccination.t) :=
  match bucket with
  | [] => [(Vaccination.vaccine_id rec, [rec])]
  | (vid, recs) :: bucket' =>
      if bool_decide (vid = Vaccination.vaccine_id rec)
      then (vid, recs ++ [rec]) :: bucket'
      else (vid, recs) :: setdefault_append bucket' rec
  end.

(** [CardEntry(record_id=r.id, dose=DoseEnum(r.dose), applied_at=r.applied_at, lot=r.lot, location=r.location)] *)
Definition CardEntry_of (r : Vaccination.t) : outcome CardEntry.t :=
  dose ← DoseEnum_ (Vaccination.dose r);
  mret (CardEntry.mk (Vaccination.id r) dose (Vaccination.applied_at r)
          (Vaccination.lot r) (Vaccination.location r)).

(** The body of [for vid, recs in bucket.items()]. *)
Definition block_of (vaccines : gmap string Vaccine.t)
    (item : string * list Vaccination.t) : outcome CardVaccineBlock.t :=
  let '(vid, recs) := item in
  let v := vaccines !! vid in
  entries ← for_each CardEntry_of recs;
  mret (CardVaccineBlock.mk vid
          (match v with Some v => Vaccine.name v | None => vid end) entries).

(** [MatrixCol(vaccine_id=v.id, vaccine_name=v.name)] *)
Definition MatrixCol_of (v : Vaccine.t) : MatrixCol.t :=
  MatrixCol.mk (Vaccine.id v) (Vaccine.name v).

(** The body of [for c in cols] in the matrix view. *)
Definition cell_of (by_key : gmap (string * string) Vaccination.t) (d : DoseEnum)
    (c : MatrixCol.t) : outcome (option MatrixCell.t) :=
  match by_key !! (Dose.value d, MatrixCol.vaccine_id c) with
  | Some r =>
      dose ← DoseEnum_ (Vaccination.dose r);
      mret (Some (MatrixCell.mk (Vaccination.id r) (Vaccination.applied_at r) dose))
  | None => mret None
  end.

(** [GET /people/{pid}/card] *)
Definition get_card (pid : string) (format : string) : M Card :=
  p ← db_get_Person pid;
  match p with
  | None => raise (HTTPException 404 Pessoa_nao_encontrada)
  | Some p =>
      db ← query;
      let of_person := filter (λ r, Vaccination.person_id r = pid) (vaccinations db) in
      if bool_decide (format = "list") then
        let vaccines : gmap string Vaccine.t :=
          foldl (λ m v, <[Vaccine.id v := v]> m) ∅ (vaccines db) in
        let bucket := foldl setdefault_append [] (order_by_applied_at of_person) in
        lift (blocks ← for_each (block_of vaccines) bucket;
              person ← PersonOut_of p;
              mret (CardList (CardListOut.mk person blocks)))
      else
        let cols := MatrixCol_of <$> order_by_name (vaccines db) in
        let rows := DOSE_ORDER in
        let by_key : gmap (string * string) Vaccination.t :=
          foldl (λ m rec, <[(Vaccination.dose rec, Vaccination.vaccine_id rec) := rec]> m)
            ∅ of_person in
        lift (grid ← for_each (λ d, for_each (cell_of by_key d) cols) rows;
              mret (CardMatrix (CardMatrixOut.mk rows cols grid)))
  end.

(** ** Endpoints that only read *)

(** [GET /vaccines] *)
Definition list_vaccines : M (list VaccineOut.t) :=
  db ← query; lift (for_each VaccineOut_from_model (vaccines db)).

(** [GET /vaccines/{vid}] *)
Definition get_vaccine (vid : string) : M VaccineOut.t :=
  v ← db_get_Vaccine vid;
  match v with
  | None => raise (HTTPException 404 Vacina_nao_encontrada)
  | Some v => lift (VaccineOut_from_model v)
  end.

(** [GET /people] *)
Definition list_people : M (list PersonOut.t) :=
  db ← query; lift (for_each PersonOut_of (people db)).

(** [GET /people/{pid}] *)
Definition get_person (pid : string) : M PersonOut.t :=
  p ← db_get_Person pid;
  match p with
  | None => raise (HTTPException 404 Pessoa_nao_encontrada)
  | Some p => lift (PersonOut_of p)
  end.

(** [GET /vaccinations/{rid}] *)
Definition get_vaccination (rid : string) : M VaccinationOut.t :=
  rec ← db_get_Vaccination rid;
  match rec with
  | None => raise (HTTPException 404 Registro_nao_encontrado)
  | Some rec => lift (VaccinationOut_of rec)
  end.

(** ** Authentication *)

(** The truth value of an [Optional[str]]: [None] and the empty string are
    falsy. *)
Definition truthy (s : option string) : bool :=
  match s with
  | None | Some EmptyString => false
  | Some (String _ _) => true
  end.

(** [require_api_key]; [API_KEY_ENV] is what [os.getenv("API_KEY")] gave
    when the module was loaded, [x_api_key] the request's header. *)
Definition require_api_key (API_KEY_ENV x_api_key : option string) : outcome unit :=
  if truthy API_KEY_ENV && bool_decide (x_api_key ≠ API_KEY_ENV)
  then raise (HTTPException 401 Invalid_or_missing_API_Key)
  else mret ().

(** ** Requests that change the tables *)

Inductive request :=
| POST_vaccines (payload : VaccineIn.t) (uuid4 : string)
| DELETE_vaccines (vid : string)
| POST_people (payload : PersonIn.t) (uuid4 : string)
| DELETE_people (pid : string)
| POST_vaccinations (payload : VaccinationIn.t) (enforce_sequence : bool)
    (uuid4 : string) (utcnow : datetime)
| DELETE_vaccinations (rid : string).

(** The tables a handler leaves. *)
Definition tables_after {A} (m : M A) (db : DB) : DB := snd (m db).

Definition handle (req : request) : DB → DB :=
  match req with
  | POST_vaccines payload uuid4 => tables_after (create_vaccine payload uuid4)
  | DELETE_vaccines vid => tables_after (delete_vaccine vid)
  | POST_people payload uuid4 => tables_after (create_person payload uuid4)
  | DELETE_people pid => tables_after (delete_person pid)
  | POST_vaccinations payload enforce_sequence uuid4 utcnow =>
      tables_after (create_vaccination payload enforce_sequence uuid4 utcnow)
  | DELETE_vaccinations rid => tables_after (delete_vaccination rid)
  end.

(** The tables the API can produce from the empty database. *)
Inductive reachable : DB → Prop :=
| reachable_empty : reachable empty_db
| reachable_handle db req : reachable db → reachable (handle req db).

(** ** Properties of tables *)

(** No two dose records share (person, vaccine, dose label). *)
Definition unique_doses (db : DB) : Prop :=
  NoDup (uq_person_vaccine_dose <$> vaccinations db).

(** Every stored dose label and every stored sex is a member's value. *)
Definition stored_enums_ok (db : DB) : Prop :=
  Forall (λ r, is_Some (Dose.of_value (Vaccination.dose r))) (vaccinations db)
  ∧ Forall (λ p, is_Some (Gender.of_value (Person.sex p))) (people db).

(** Every dose record refers to a vaccine of the catalog. *)
Definition vaccine_fk_ok (db : DB) : Prop :=
  Forall (λ r, Vaccination.vaccine_id r ∈ Vaccine.id <$> vaccines db) (vaccinations db).

(** The person has a record of this dose label for this vaccine. *)
Definition on_file (db : DB) (person_id vaccine_id : string) (d : DoseEnum) : Prop :=
  ∃ r, r ∈ vaccinations db
       ∧ Vaccination.person_id r = person_id
       ∧ Vaccination.vaccine_id r = vaccine_id
       ∧ Vaccination.dose r = Dose.value d.

#[global] Instance on_file_dec db person_id vaccine_id d :
  Decision (on_file db person_id vaccine_id d).
Proof.
  refine (cast_if (decide (Exists (λ r, Vaccination.person_id r = person_id
                                        ∧ Vaccination.vaccine_id r = vaccine_id
                                        ∧ Vaccination.dose r = Dose.value d)
                             (vaccinations db))));
    unfold on_file; rewrite Exists_exists in *; naive_solver.
Defined.

(** The first label before [dose] in [DOSE_ORDER] that is not on file. *)
Definition first_missing (db : DB) (person_id vaccine_id : string) (dose : DoseEnum)
    : option DoseEnum :=
  find (λ d, bool_decide (¬ on_file db person_id vaccine_id d))
    (take (Dose.to_nat dose) DOSE_ORDER).

(** The row [create_vaccination] builds from a payload. *)
Definition record_of (payload : VaccinationIn.t) (uuid4 : string) (utcnow : datetime)
    : Vaccination.t :=
  Vaccination.mk uuid4
    (VaccinationIn.person_id payload)
    (VaccinationIn.vaccine_id payload)
    (Dose.value (VaccinationIn.dose payload))
    (VaccinationIn.applied_at payload)
    (VaccinationIn.lot payload)
    (VaccinationIn.location payload)
    utcnow.

(** [grid[row][col]] of a matrix view. *)
Definition cell (out : CardMatrixOut.t) (row col : nat) : option (option MatrixCell.t) :=
  CardMatrixOut.grid out !! row ≫= λ cells, cells !! col.

(** A cell of the matrix, once the lookup in [by_key] is known to carry the
    row's own dose label. *)
Definition cell_at (by_key : gmap (string * string) Vaccination.t) (d : DoseEnum)
    (c : MatrixCol.t) : option MatrixCell.t :=
  (λ r, MatrixCell.mk (Vaccination.id r) (Vaccination.applied_at r) d)
    <$> by_key !! (Dose.value d, MatrixCol.vaccine_id c).

(** Columns in ascending order of the vaccine's name. *)
Definition col_le (c1 c2 : MatrixCol.t) : Prop :=
  String.leb (MatrixCol.vaccine_name c1) (MatrixCol.vaccine_name c2) = true.

(** The person's dose records. *)
Definition records_of (db : DB) (pid : string) : list Vaccination.t :=
  filter (λ r, Vaccination.person_id r = pid) (vaccinations db).

(** The entry of the list view shows this record. *)
Definition shows (r : Vaccination.t) (e : CardEntry.t) : Prop :=
  CardEntry.record_id e = Vaccination.id r
  ∧ Dose.value (CardEntry.dose e) = Vaccination.dose r
  ∧ CardEntry.applied_at e = Vaccination.applied_at r
  ∧ CardEntry.lot e = Vaccination.lot r
  ∧ CardEntry.location e = Vaccination.location r.

(** What the dictionary [bucket] holds after the records [l] went through
    the grouping loop of the list view. *)
Definition groups (bucket : list (string * list Vaccination.t)) (l : list Vaccination.t)
    : Prop :=
  NoDup (fst <$> bucket)
  ∧ (∀ k recs, (k, recs) ∈ bucket →
       recs = filter (λ r, Vaccination.vaccine_id r = k) l ∧ recs ≠ [])
  ∧ (∀ r, r ∈ l → Vaccination.vaccine_id r ∈ (fst <$> bucket))
  ∧ concat (snd <$> bucket) ≡ₚ l.

(** The vaccine with its stored text replaced by the document of the
    allowed doses that [allowed_list] reads from it: itself when the text
    decodes, and the vaccine allowing all of [DOSE_ORDER] when it does not. *)
Definition restored (v : Vaccine.t) : Vaccine.t :=
  Vaccine.mk (Vaccine.id v) (Vaccine.name v) (Vaccine.code v) (json_dumps (allowed_list v)).

Definition restored_db (db : DB) : DB :=
  mkDB (people db) (restored <$> vaccines db) (vaccinations db).

(** [d] comes before [dose] in the global order [ORDER_INDEX]. *)
Definition precedes (d dose : DoseEnum) : Prop :=
  ∃ i k, ORDER_INDEX !! d = Some i ∧ ORDER_INDEX !! dose = Some k ∧ (i < k)%nat.

(** The row [create_vaccine] builds from a payload. *)
Definition vaccine_of (payload : VaccineIn.t) (uuid4 : string) : Vaccine.t :=
  Vaccine.mk uuid4 (VaccineIn.name payload) (VaccineIn.code payload)
    (json_dumps (values_of (or_DOSE_ORDER (VaccineIn.allowed_doses payload)))).

(** The row [create_person] builds from a payload. *)
Definition person_of (payload : PersonIn.t) (uuid4 : string) : Person.t :=
  Person.mk uuid4 (PersonIn.name payload) (PersonIn.document payload)
    (Gender.value (PersonIn.sex payload)) (PersonIn.age payload).

(** Primary keys and the columns declared [unique=True] hold no value
    twice. *)
Definition keys_unique (db : DB) : Prop :=
  NoDup (Person.id <$> people db)
  ∧ NoDup (Person.document <$> people db)
  ∧ NoDup (Vaccine.id <$> vaccines db)
  ∧ NoDup (Vaccine.code <$> vaccines db)
  ∧ NoDup (Vaccination.id <$> vaccinations db).

(** Every dose record refers to a person of the table. *)
Definition person_fk_ok (db : DB) : Prop :=
  Forall (λ r, Vaccination.person_id r ∈ Person.id <$> people db) (vaccinations db).

(** Every vaccine stores the document of a list of dose values that is not
    empty. *)
Definition allowed_doses_ok (db : DB) : Prop :=
  Forall (λ v, ∃ d ds, Vaccine.allowed_doses v = json_dumps (values_of (d :: ds)))
    (vaccines db).

(** Whoever has a dose of a vaccine on file has every earlier dose of it. *)
Definition histories_closed (db : DB) : Prop :=
  ∀ pid vid d d', on_file db pid vid d → precedes d' d → on_file db pid vid d'.

(** Requests that either check the sequence or cannot break it: no dose is
    recorded with the check off and no single record is deleted. *)
Definition sequenced (req : request) : Prop :=
  match req with
  | POST_vaccinations _ enforce_sequence _ _ => enforce_sequence = true
  | DELETE_vaccinations _ => False
  | _ => True
  end.

(** The tables after a list of requests, served in order. *)
Definition serve (reqs : list request) (db : DB) : DB :=
  foldl (λ db req, handle req db) db reqs.

(** The identifiers of the records a matrix view shows. *)
Definition matrix_record_ids (out : CardMatrixOut.t) : list string :=
  MatrixCell.record_id <$> omap id (concat (CardMatrixOut.grid out)).

(** The identifiers of the records a list view shows. *)
Definition list_record_ids (out : CardListOut.t) : list string :=
  CardEntry.record_id
    <$> concat (CardVaccineBlock.entries <$> CardListOut.vaccines out).

(** The first record of each item of the dictionary [bucket]. *)
Definition firsts (bucket : list (string * list Vaccination.t)) : list Vaccination.t :=
  omap (λ item, head (snd item)) bucket.

(** The applied date of the first entry of each block of a list view. *)
Definition first_dates (out : CardListOut.t) : list date :=
  omap (λ b, CardEntry.applied_at <$> head (CardVaccineBlock.entries b))
    (CardListOut.vaccines out).

(** ** A worked history

    The catalog and person of [test_happy_path], and a second vaccine whose
    allowed doses skip the third dose. *)
Module Ex.
Definition hepb : VaccineIn.t := VaccineIn.mk "Hepatite B" "hepb" (Some [D1; D2; D3; R1]).
Definition bcg : VaccineIn.t := VaccineIn.mk "BCG" "bcg" (Some [D1; D2; R1]).
Definition ana : PersonIn.t := PersonIn.mk "Ana Paula" "123" F_ 30.

Definition db0 : DB :=
  foldl (λ db req, handle req db) empty_db
    [POST_vaccines hepb "v-hepb"; POST_vaccines bcg "v-bcg"; POST_people ana "p-ana"].

Definition shot (vaccine_id : string) (dose : DoseEnum) (applied_at : date) : VaccinationIn.t :=
  VaccinationIn.mk "p-ana" vaccine_id dose applied_at None None.

(** Ana has the first and second dose of both vaccines. *)
Definition db2 : DB :=
  foldl (λ db req, handle req db) db0
    [POST_vaccinations (shot "v-hepb" D1 10) true "r-1" 1;
     POST_vaccinations (shot "v-hepb" D2 41) true "r-2" 2;
     POST_vaccinations (shot "v-bcg" D1 12) true "r-3" 3;
     POST_vaccinations (shot "v-bcg" D2 45) true "r-4" 4].

(** Ana has only a second dose, recorded with the sequence check off. *)
Definition db_d2 : DB :=
  handle (POST_vaccinations (shot "v-hepb" D2 41) false "r-1" 1) db0.
End Ex.

(** * Proofs *)

(** ** The monad *)

Lemma bind_run {A B} (m : M A) (f : A → M B) db :
  (m ≫= f) db =
  match m db with
  | (Return a, db') => f a db'
  | (Raise e, db') => (Raise e, db')
  end.
Proof. reflexivity. Qed.

Ltac run :=
  unfold mbind, M_bind, outcome_bind, mret, M_ret, outcome_ret,
    mthrow, M_throw, outcome_throw, query, lift, or_raise;
  simpl.

(** ** Enumerations *)

Lemma of_value_value d : Dose.of_value (Dose.value d) = Some d.
Proof. by destruct d. Qed.

Lemma of_value_Some s d : Dose.of_value s = Some d → s = Dose.value d.
Proof.
  unfold Dose.of_value.
  repeat match goal with
         | |- context [String.eqb s ?v] =>
             destruct (String.eqb_spec s v) as [->|_]; [by intros [= <-]|]
         end.
  done.
Qed.

#[global] Instance value_inj : Inj (=) (=) Dose.value.
Proof. intros d1 d2 H. by destruct d1, d2. Qed.

Lemma gender_of_value_value g : Gender.of_value (Gender.value g) = Some g.
Proof. by destruct g. Qed.

Lemma ORDER_INDEX_lookup d : ORDER_INDEX !! d = Some (Dose.to_nat d).
Proof. by destruct d; vm_compute. Qed.

Lemma DOSE_ORDER_lookup d : DOSE_ORDER !! Dose.to_nat d = Some d.
Proof. by destruct d. Qed.

Lemma DOSE_ORDER_lookup_Some i d : DOSE_ORDER !! i = Some d → i = Dose.to_nat d.
Proof.
  do 5 (destruct i as [|i]; [by intros [= <-]|]). done.
Qed.

(** [d] comes before [dose] in the global order exactly when it is among the
    labels [DOSE_ORDER[:idx]]. *)
Lemma elem_of_prev d dose :
  d ∈ take (Dose.to_nat dose) DOSE_ORDER ↔ (Dose.to_nat d < Dose.to_nat dose)%nat.
Proof.
  split.
  - intros (i & Hi)%list_elem_of_lookup.
    apply lookup_take_Some in Hi as [Hi Hlt].
    by apply DOSE_ORDER_lookup_Some in Hi as ->.
  - intros Hlt. apply list_elem_of_lookup. exists (Dose.to_nat d).
    rewrite lookup_take_lt by done. apply DOSE_ORDER_lookup.
Qed.

(** ** Lists *)

Lemma find_ext {A} (f g : A → bool) l : (∀ x, f x = g x) → find f l = find g l.
Proof. intros E. induction l as [|x l IH]; simpl; [done|]. by rewrite E, IH. Qed.

Lemma find_first {A} (f : A → bool) l x :
  find f l = Some x →
  ∃ l1 l2, l = l1 ++ x :: l2 ∧ f x = true ∧ Forall (λ y, f y = false) l1.
Proof.
  induction l as [|y l IH]; simpl; [done|].
  destruct (f y) eqn:Hy.
  - intros [= <-]. by exists [], l.
  - intros (l1 & l2 & -> & Hx & Hl1)%IH.
    exists (y :: l1), l2. by repeat constructor.
Qed.

Lemma find_None {A} (f : A → bool) l :
  find f l = None ↔ Forall (λ y, f y = false) l.
Proof.
  induction l as [|y l IH]; simpl; [by split; [constructor|]|].
  destruct (f y) eqn:Hy.
  - split; [done|]. intros [? _]%Forall_cons. congruence.
  - rewrite IH. split; [by constructor|]. by intros [_ ?]%Forall_cons.
Qed.

Lemma find_key_Some {A} (key : A → string) k l x :
  find (λ y, bool_decide (key y = k)) l = Some x → x ∈ l ∧ key x = k.
Proof.
  intros [Hin Hk]%find_some. split; [by apply list_elem_of_In|].
  by apply bool_decide_eq_true in Hk.
Qed.

Lemma find_key_None {A} (key : A → string) k l :
  find (λ y, bool_decide (key y = k)) l = None ↔ k ∉ key <$> l.
Proof.
  rewrite find_None, Forall_forall, list_elem_of_fmap. split.
  - intros H (x & -> & Hx). specialize (H x Hx). by apply bool_decide_eq_false in H.
  - intros H x Hx. apply bool_decide_eq_false. intros <-. apply H. by exists x.
Qed.

(** ** The helpers, run *)

Lemma on_file_existing db pid vid d :
  Dose.value d ∈ (list_to_set (Vaccination.dose <$>
      filter (λ r, Vaccination.person_id r = pid ∧ Vaccination.vaccine_id r = vid)
        (vaccinations db)) : gset string)
  ↔ on_file db pid vid d.
Proof.
  rewrite elem_of_list_to_set, list_elem_of_fmap. unfold on_file.
  setoid_rewrite list_elem_of_filter. naive_solver.
Qed.

Lemma on_file_dup db pid vid d :
  is_Some (head (filter (λ r, Vaccination.person_id r = pid
                             ∧ Vaccination.vaccine_id r = vid
                             ∧ Vaccination.dose r = Dose.value d) (vaccinations db)))
  ↔ on_file db pid vid d.
Proof.
  rewrite head_is_Some. unfold on_file. split.
  - destruct (filter _ _) as [|r l] eqn:E; [done|]. intros _.
    assert (r ∈ r :: l) as Hr by left. rewrite <- E in Hr.
    apply list_elem_of_filter in Hr. naive_solver.
  - intros (r & Hr & ? & ? & ?) E.
    assert (r ∈ filter (λ r, Vaccination.person_id r = pid
                              ∧ Vaccination.vaccine_id r = vid
                              ∧ Vaccination.dose r = Dose.value d) (vaccinations db)) as Hin
      by (apply list_elem_of_filter; naive_solver).
    rewrite E in Hin. by apply not_elem_of_nil in Hin.
Qed.

Lemma on_file_uq db pid vid d :
  (pid, vid, Dose.value d) ∈ uq_person_vaccine_dose <$> vaccinations db
  ↔ on_file db pid vid d.
Proof.
  rewrite list_elem_of_fmap. unfold on_file, uq_person_vaccine_dose. split.
  - intros (r & [= -> -> Hd] & Hr). by exists r.
  - intros (r & Hr & <- & <- & <-). by exists r.
Qed.

Lemma ensure_dose_allowed_run vac dose :
  ensure_dose_allowed vac dose =
  match py_in (Dose.value dose) (allowed_list vac) with
  | Return true => Return ()
  | Return false => Raise (HTTPException 422 (Dose_nao_permitida dose (Vaccine.name vac)))
  | Raise e => Raise e
  end.
Proof.
  unfold ensure_dose_allowed. run. by destruct (py_in _ _) as [[]|].
Qed.

Lemma require_previous_run dose existing prev db :
  require_previous dose existing prev db =
  (match find (λ d, bool_decide (Dose.value d ∉ existing)) prev with
   | Some d => Raise (HTTPException 409 (Ordem_invalida dose d))
   | None => Return ()
   end, db).
Proof.
  induction prev as [|d prev IH]; simpl; [done|].
  by destruct (bool_decide _).
Qed.

Lemma ensure_dose_order_run pid vid dose db :
  ensure_dose_order pid vid dose db =
  (match first_missing db pid vid dose with
   | Some d => Raise (HTTPException 409 (Ordem_invalida dose d))
   | None => Return ()
   end, db).
Proof.
  unfold ensure_dose_order, first_missing, history. run.
  rewrite ORDER_INDEX_lookup. run. case_bool_decide as H0.
  - by rewrite H0.
  - rewrite require_previous_run. do 2 f_equal.
    erewrite find_ext; [done|]. intros d. simpl.
    apply bool_decide_ext. by rewrite on_file_existing.
Qed.

Lemma add_Vaccination_run rec db :
  add_Vaccination rec db =
  if decide ((Vaccination.id rec ∉ Vaccination.id <$> vaccinations db)
             ∧ (uq_person_vaccine_dose rec ∉ uq_person_vaccine_dose <$> vaccinations db)
             ∧ (Vaccination.person_id rec ∈ Person.id <$> people db)
             ∧ (Vaccination.vaccine_id rec ∈ Vaccine.id <$> vaccines db))
  then (Return (), mkDB (people db) (vaccines db) (vaccinations db ++ [rec]))
  else (Raise IntegrityError, db).
Proof. unfold add_Vaccination. by case_bool_decide; case_decide. Qed.

(** ** [create_vaccination], run

    The endpoint decides in this order: person, vaccine, allowed dose,
    sequence (when enforced), duplicate, and only then writes. *)
Lemma create_vaccination_run payload enforce_sequence uuid4 utcnow db :
  let pid := VaccinationIn.person_id payload in
  let vid := VaccinationIn.vaccine_id payload in
  let dose := VaccinationIn.dose payload in
  create_vaccination payload enforce_sequence uuid4 utcnow db =
  match find (λ p, bool_decide (Person.id p = pid)) (people db) with
  | None => (Raise (HTTPException 404 Pessoa_nao_encontrada), db)
  | Some p =>
  match find (λ v, bool_decide (Vaccine.id v = vid)) (vaccines db) with
  | None => (Raise (HTTPException 404 Vacina_nao_encontrada), db)
  | Some v =>
  match py_in (Dose.value dose) (allowed_list v) with
  | Raise e => (Raise e, db)
  | Return false =>
      (Raise (HTTPException 422 (Dose_nao_permitida dose (Vaccine.name v))), db)
  | Return true =>
  match (if enforce_sequence then first_missing db pid vid dose else None) with
  | Some d => (Raise (HTTPException 409 (Ordem_invalida dose d)), db)
  | None =>
  if decide (on_file db pid vid dose)
  then (Raise (HTTPException 409 Dose_ja_registrada), db)
  else if decide (uuid4 ∈ Vaccination.id <$> vaccinations db)
  then (Raise IntegrityError, db)
  else (Return (VaccinationOut.mk uuid4 pid vid dose (VaccinationIn.applied_at payload)
                  (VaccinationIn.lot payload) (VaccinationIn.location payload) utcnow),
        mkDB (people db) (vaccines db)
          (vaccinations db ++ [record_of payload uuid4 utcnow]))
  end end end end.
Proof.
  intros pid vid dose. unfold create_vaccination, db_get_Person, db_get_Vaccine. run.
  fold pid vid dose.
  destruct (find _ (people db)) as [p|] eqn:Hp; [|done].
  destruct (find _ (vaccines db)) as [v|] eqn:Hv; [|done].
  rewrite ensure_dose_allowed_run.
  destruct (py_in _ _) as [[]|]; [|done..].
  assert ((if enforce_sequence then ensure_dose_order pid vid dose
           else λ db0, (Return (), db0)) db =
          (match (if enforce_sequence then first_missing db pid vid dose else None) with
           | Some d => Raise (HTTPException 409 (Ordem_invalida dose d))
           | None => Return ()
           end, db)) as ->.
  { destruct enforce_sequence; [apply ensure_dose_order_run|done]. }
  destruct (if enforce_sequence then _ else _); [done|].
  apply find_key_Some in Hp as [Hp Hpid], Hv as [Hv Hvid].
  case_bool_decide as Hdup; rewrite on_file_dup in Hdup; case_decide; try done.
  rewrite add_Vaccination_run.
  unfold VaccinationOut_of, DoseEnum_. run.
  case_decide as Hadd; case_decide as Hid.
  - by destruct Hadd as [? _].
  - by rewrite of_value_value.
  - done.
  - destruct Hadd. split_and!; simpl.
    + done.
    + intros Hin. by apply Hdup, on_file_uq.
    + rewrite <- Hpid. by apply list_elem_of_fmap_2.
    + rewrite <- Hvid. by apply list_elem_of_fmap_2.
Qed.

(** ** The sequence check *)

Lemma precedes_to_nat d dose :
  precedes d dose ↔ (Dose.to_nat d < Dose.to_nat dose)%nat.
Proof.
  unfold precedes. setoid_rewrite ORDER_INDEX_lookup. naive_solver.
Qed.

Lemma first_missing_None db pid vid dose :
  first_missing db pid vid dose = None
  ↔ ∀ d, precedes d dose → on_file db pid vid d.
Proof.
  unfold first_missing. rewrite find_None, Forall_forall.
  setoid_rewrite elem_of_prev. setoid_rewrite precedes_to_nat.
  setoid_rewrite bool_decide_eq_false. split.
  - intros H d Hd. by destruct (decide (on_file db pid vid d)); [|destruct (H d Hd)].
  - intros H d Hd Hmiss. by apply Hmiss, H.
Qed.

Lemma first_missing_Some db pid vid dose d :
  first_missing db pid vid dose = Some d →
  precedes d dose ∧ ¬ on_file db pid vid d
  ∧ ∀ d', precedes d' d → on_file db pid vid d'.
Proof.
  unfold first_missing. intros (l1 & l2 & Hl & Hd & Hl1)%find_first.
  apply bool_decide_eq_true in Hd.
  assert (take (Dose.to_nat dose) DOSE_ORDER !! length l1 = Some d) as Hat.
  { rewrite Hl. by apply list_lookup_middle. }
  apply lookup_take_Some in Hat as [Hat Hlt].
  apply DOSE_ORDER_lookup_Some in Hat.
  rewrite !precedes_to_nat. split_and!; [lia|done|].
  intros d' Hd'. rewrite precedes_to_nat in Hd'.
  assert (d' ∈ l1) as Hin.
  { apply list_elem_of_lookup. exists (Dose.to_nat d').
    assert (take (Dose.to_nat dose) DOSE_ORDER !! Dose.to_nat d' = Some d') as Hd'at.
    { rewrite lookup_take_lt by lia. apply DOSE_ORDER_lookup. }
    rewrite Hl, lookup_app_l in Hd'at by lia. done. }
  rewrite Forall_forall in Hl1. specialize (Hl1 d' Hin).
  apply bool_decide_eq_false in Hl1.
  by destruct (decide (on_file db pid vid d')).
Qed.

Lemma first_missing_is_Some db pid vid dose d :
  precedes d dose → ¬ on_file db pid vid d →
  is_Some (first_missing db pid vid dose).
Proof.
  intros Hd Hmiss. destruct (first_missing db pid vid dose) eqn:E; [done|].
  rewrite first_missing_None in E. by destruct Hmiss; apply E.
Qed.

Lemma existsb_eq_str x items :
  existsb (eq_str x) items = true ↔ JString x ∈ items.
Proof.
  rewrite existsb_exists. setoid_rewrite <- list_elem_of_In. split.
  - intros (j & Hin & Heq). destruct j; try done.
    simpl in Heq. by apply String.eqb_eq in Heq as ->.
  - intros Hin. exists (JString x). split; [done|]. apply String.eqb_refl.
Qed.

Lemma db_get_Person_Some pid p db :
  db_get_Person pid db = (Return (Some p), db) →
  find (λ p, bool_decide (Person.id p = pid)) (people db) = Some p.
Proof. unfold db_get_Person. run. congruence. Qed.

Lemma db_get_Vaccine_Some vid v db :
  db_get_Vaccine vid db = (Return (Some v), db) →
  find (λ v, bool_decide (Vaccine.id v = vid)) (vaccines db) = Some v.
Proof. unfold db_get_Vaccine. run. congruence. Qed.

Lemma find_key_is_Some {A} (key : A → string) k l :
  k ∈ key <$> l → ∃ x, find (λ y, bool_decide (key y = k)) l = Some x.
Proof.
  intros Hin. destruct (find _ l) as [x|] eqn:E; [by exists x|].
  by apply find_key_None in E.
Qed.

(** ** The card views, run *)

Lemma for_each_Return {A B} (f : A → outcome B) (g : A → B) l :
  (∀ x, x ∈ l → f x = Return (g x)) → for_each f l = Return (g <$> l).
Proof.
  induction l as [|x l IH]; intros Hf; simpl; [done|].
  rewrite Hf by left. run. rewrite IH; [done|].
  intros y Hy. apply Hf. by right.
Qed.

Section by_key.
Context {K : Type} `{Countable K} {A : Type} (key : A → K).

Lemma by_key_lookup_Some (l : list A) (m : gmap K A) k r :
  foldl (λ m rec, <[key rec := rec]> m) m l !! k = Some r →
  (r ∈ l ∧ key r = k) ∨ m !! k = Some r.
Proof.
  revert m. induction l as [|x l IH]; intros m; simpl; [by right|].
  intros [[Hr Hk]|Hm]%IH.
  - left. split; [by right|done].
  - destruct (decide (key x = k)) as [<-|Hne].
    + rewrite lookup_insert_eq in Hm. injection Hm as <-. left. split; [left|done].
    + rewrite lookup_insert_ne in Hm by done. by right.
Qed.

Lemma by_key_lookup_is_Some (l : list A) (m : gmap K A) k :
  (∃ r, r ∈ l ∧ key r = k) ∨ is_Some (m !! k) →
  is_Some (foldl (λ m rec, <[key rec := rec]> m) m l !! k).
Proof.
  revert m. induction l as [|x l IH]; intros m; simpl.
  - intros [(r & Hr & _)|Hm]; [|done]. by apply not_elem_of_nil in Hr.
  - intros Hor. apply IH.
    destruct (decide (key x = k)) as [<-|Hne].
    { right. rewrite lookup_insert_eq. eauto. }
    rewrite lookup_insert_ne by done.
    destruct Hor as [(r & Hr & Hk)|Hm]; [|by right].
    apply elem_of_cons in Hr as [->|Hr]; [done|]. left. eauto.
Qed.
End by_key.

#[global] Instance name_le_total : Total name_le.
Proof. intros v1 v2. apply String.leb_total. Qed.

#[global] Instance applied_at_le_total : Total applied_at_le.
Proof. intros r1 r2. unfold applied_at_le. lia. Qed.

#[global] Instance applied_at_le_trans : Transitive applied_at_le.
Proof. intros r1 r2 r3. unfold applied_at_le. lia. Qed.

Lemma get_card_run pid format db :
  get_card pid format db =
  (match find (λ p, bool_decide (Person.id p = pid)) (people db) with
   | None => Raise (HTTPException 404 Pessoa_nao_encontrada)
   | Some p =>
       if bool_decide (format = "list"%string) then
         blocks ← for_each
                    (block_of (foldl (λ m v, <[Vaccine.id v := v]> m) ∅ (vaccines db)))
                    (foldl setdefault_append [] (order_by_applied_at (records_of db pid)));
         person ← PersonOut_of p;
         mret (CardList (CardListOut.mk person blocks))
       else
         grid ← for_each
                  (λ d, for_each
                          (cell_of (foldl (λ m rec, <[(Vaccination.dose rec,
                                                       Vaccination.vaccine_id rec) := rec]> m)
                                      ∅ (records_of db pid)) d)
                          (MatrixCol_of <$> order_by_name (vaccines db)))
                  DOSE_ORDER;
         mret (CardMatrix (CardMatrixOut.mk DOSE_ORDER
                             (MatrixCol_of <$> order_by_name (vaccines db)) grid))
   end, db).
Proof.
  unfold get_card, db_get_Person.
  unfold mbind at 1 2 3, M_bind, query, lift. simpl.
  destruct (find _ _); [|done]. by case_bool_decide.
Qed.

Lemma elem_of_records_of db pid r :
  r ∈ records_of db pid ↔ r ∈ vaccinations db ∧ Vaccination.person_id r = pid.
Proof. unfold records_of. rewrite list_elem_of_filter. tauto. Qed.

Lemma cell_of_Return (l : list Vaccination.t) d c :
  let by_key := foldl (λ m rec, <[(Vaccination.dose rec, Vaccination.vaccine_id rec) := rec]> m)
                  (∅ : gmap (string * string) Vaccination.t) l in
  cell_of by_key d c = Return (cell_at by_key d c).
Proof.
  intros by_key. unfold cell_of, cell_at.
  destruct (by_key !! _) as [r|] eqn:E; [|done].
  apply by_key_lookup_Some in E as [[_ [= Hd _]]|E]; [|by rewrite lookup_empty in E].
  unfold DoseEnum_. by rewrite Hd, of_value_value.
Qed.

(** ** What each request leaves in the tables *)

Lemma create_vaccination_tables payload enforce_sequence uuid4 utcnow db :
  let db' := tables_after (create_vaccination payload enforce_sequence uuid4 utcnow) db in
  db' = db
  ∨ (db' = mkDB (people db) (vaccines db)
             (vaccinations db ++ [record_of payload uuid4 utcnow])
     ∧ ¬ on_file db (VaccinationIn.person_id payload) (VaccinationIn.vaccine_id payload)
           (VaccinationIn.dose payload)
     ∧ VaccinationIn.vaccine_id payload ∈ Vaccine.id <$> vaccines db).
Proof.
  unfold tables_after. rewrite create_vaccination_run.
  destruct (find _ (people db)); [|by left].
  destruct (find _ (vaccines db)) as [v|] eqn:Hv; [|by left].
  apply find_key_Some in Hv as [Hv Hvid].
  destruct (py_in _ _) as [[]|]; [|by left..].
  destruct (if enforce_sequence then _ else _); [by left|].
  repeat case_decide; [by left..|]. right. split_and!; [done..|].
  rewrite <- Hvid. by apply list_elem_of_fmap_2.
Qed.

Lemma create_vaccine_tables payload uuid4 db :
  let db' := tables_after (create_vaccine payload uuid4) db in
  db' = db
  ∨ ∃ v, db' = mkDB (people db) (vaccines db ++ [v]) (vaccinations db).
Proof.
  unfold tables_after, create_vaccine, add_Vaccine. run.
  repeat case_bool_decide; simpl; [by left| |by left].
  right. eauto.
Qed.

Lemma create_person_tables payload uuid4 db :
  let db' := tables_after (create_person payload uuid4) db in
  db' = db
  ∨ ∃ p, db' = mkDB (people db ++ [p]) (vaccines db) (vaccinations db)
         ∧ is_Some (Gender.of_value (Person.sex p)).
Proof.
  unfold tables_after, create_person, add_Person. run.
  repeat case_bool_decide; simpl; [by left| |by left].
  right. eexists. split; [done|]. simpl. rewrite gender_of_value_value. eauto.
Qed.

Lemma delete_vaccine_tables vid db :
  let db' := tables_after (delete_vaccine vid) db in
  db' = db
  ∨ db' = mkDB (people db)
            (filter (λ v, Vaccine.id v ≠ vid) (vaccines db))
            (filter (λ r, Vaccination.vaccine_id r ≠ vid) (vaccinations db)).
Proof.
  unfold tables_after, delete_vaccine, db_get_Vaccine, delete_Vaccine. run.
  destruct (find _ _) as [v|] eqn:Hv; [|by left].
  apply find_key_Some in Hv as [_ <-]. by right.
Qed.

Lemma delete_person_tables pid db :
  let db' := tables_after (delete_person pid) db in
  db' = db
  ∨ db' = mkDB (filter (λ p, Person.id p ≠ pid) (people db))
            (vaccines db)
            (filter (λ r, Vaccination.person_id r ≠ pid) (vaccinations db)).
Proof.
  unfold tables_after, delete_person, db_get_Person, delete_Person. run.
  destruct (find _ _) as [p|] eqn:Hp; [|by left].
  apply find_key_Some in Hp as [_ <-]. by right.
Qed.

Lemma delete_vaccination_tables rid db :
  let db' := tables_after (delete_vaccination rid) db in
  db' = db
  ∨ db' = mkDB (people db) (vaccines db)
            (filter (λ r, Vaccination.id r ≠ rid) (vaccinations db)).
Proof.
  unfold tables_after, delete_vaccination, db_get_Vaccination, delete_Vaccination. run.
  destruct (find _ _) as [r|] eqn:Hr; [|by left].
  apply find_key_Some in Hr as [_ <-]. by right.
Qed.

(** ** What the API keeps true of the tables *)

Lemma NoDup_fmap_filter {A B} (f : A → B) (P : A → Prop) `{∀ x, Decision (P x)} l :
  NoDup (f <$> l) → NoDup (f <$> filter P l).
Proof.
  induction l as [|x l IH]; [done|]. rewrite fmap_cons, NoDup_cons.
  intros [Hx Hl]. rewrite filter_cons. case_decide; [|by apply IH].
  rewrite fmap_cons, NoDup_cons. split; [|by apply IH].
  intros (y & Hy & [_ Hin]%list_elem_of_filter)%list_elem_of_fmap.
  apply Hx, list_elem_of_fmap. eauto.
Qed.

Lemma Forall_filter_2 {A} (Q P : A → Prop) `{∀ x, Decision (P x)} l :
  Forall Q l → Forall Q (filter P l).
Proof.
  rewrite !Forall_forall. intros HQ x [_ Hx]%list_elem_of_filter. by apply HQ.
Qed.

Lemma handle_unique_doses req db : unique_doses db → unique_doses (handle req db).
Proof.
  unfold unique_doses. intros Hdb. destruct req as [payload uuid4|vid|payload uuid4|pid
    |payload flag uuid4 utcnow|rid]; simpl.
  - by destruct (create_vaccine_tables payload uuid4 db) as [->|[v ->]].
  - destruct (delete_vaccine_tables vid db) as [->| ->]; [done|].
    by apply NoDup_fmap_filter.
  - by destruct (create_person_tables payload uuid4 db) as [->|(p & -> & _)].
  - destruct (delete_person_tables pid db) as [->| ->]; [done|].
    by apply NoDup_fmap_filter.
  - destruct (create_vaccination_tables payload flag uuid4 utcnow db)
      as [->|(-> & Hnew & _)]; [done|]. simpl.
    rewrite fmap_app, NoDup_app. split_and!; [done| |apply NoDup_singleton].
    intros k Hk ->%list_elem_of_singleton. by apply Hnew, on_file_uq.
  - destruct (delete_vaccination_tables rid db) as [->| ->]; [done|].
    by apply NoDup_fmap_filter.
Qed.

Lemma handle_stored_enums_ok req db : stored_enums_ok db → stored_enums_ok (handle req db).
Proof.
  unfold stored_enums_ok. intros [Hdose Hsex]. destruct req as [payload uuid4|vid
    |payload uuid4|pid|payload flag uuid4 utcnow|rid]; simpl.
  - by destruct (create_vaccine_tables payload uuid4 db) as [->|[v ->]].
  - destruct (delete_vaccine_tables vid db) as [->| ->]; [done|].
    split; [by apply Forall_filter_2|done].
  - destruct (create_person_tables payload uuid4 db) as [->|(p & -> & Hp)]; [done|].
    split; [done|]. apply Forall_app. by split; [|constructor].
  - destruct (delete_person_tables pid db) as [->| ->]; [done|].
    by split; apply Forall_filter_2.
  - destruct (create_vaccination_tables payload flag uuid4 utcnow db)
      as [->|(-> & _)]; [done|].
    split; [|done]. apply Forall_app. split; [done|]. constructor; [|done].
    simpl. rewrite of_value_value. eauto.
  - destruct (delete_vaccination_tables rid db) as [->| ->]; [done|].
    split; [by apply Forall_filter_2|done].
Qed.

Lemma handle_vaccine_fk_ok req db : vaccine_fk_ok db → vaccine_fk_ok (handle req db).
Proof.
  unfold vaccine_fk_ok. intros Hfk. destruct req as [payload uuid4|vid
    |payload uuid4|pid|payload flag uuid4 utcnow|rid]; simpl.
  - destruct (create_vaccine_tables payload uuid4 db) as [->|[v ->]]; [done|].
    simpl. eapply Forall_impl; [done|]. intros r Hr. rewrite fmap_app, elem_of_app. by left.
  - destruct (delete_vaccine_tables vid db) as [->| ->]; [done|]. simpl.
    rewrite Forall_forall in Hfk. apply Forall_forall.
    intros r [Hne Hr]%list_elem_of_filter.
    apply Hfk, list_elem_of_fmap in Hr as (v & Hid & Hv).
    apply list_elem_of_fmap. exists v. split; [done|].
    apply list_elem_of_filter. split; [congruence|done].
  - by destruct (create_person_tables payload uuid4 db) as [->|(p & -> & _)].
  - destruct (delete_person_tables pid db) as [->| ->]; [done|].
    by apply Forall_filter_2.
  - destruct (create_vaccination_tables payload flag uuid4 utcnow db)
      as [->|(-> & _ & Hv)]; [done|].
    apply Forall_app. split; [done|]. by constructor.
  - destruct (delete_vaccination_tables rid db) as [->| ->]; [done|].
    by apply Forall_filter_2.
Qed.

Lemma reachable_stored_enums_ok db : reachable db → stored_enums_ok db.
Proof.
  induction 1; [by split; constructor|]. by apply handle_stored_enums_ok.
Qed.

Lemma reachable_vaccine_fk_ok db : reachable db → vaccine_fk_ok db.
Proof.
  induction 1; [by constructor|]. by apply handle_vaccine_fk_ok.
Qed.

Lemma reachable_foldl reqs db :
  reachable db → reachable (foldl (λ db req, handle req db) db reqs).
Proof.
  revert db. induction reqs as [|req reqs IH]; intros db Hdb; simpl; [done|].
  by apply IH, reachable_handle.
Qed.

Lemma reachable_db0 : reachable Ex.db0.
Proof. apply reachable_foldl, reachable_empty. Qed.

Lemma reachable_db2 : reachable Ex.db2.
Proof. apply reachable_foldl, reachable_db0. Qed.

Lemma reachable_db_d2 : reachable Ex.db_d2.
Proof. apply reachable_handle, reachable_db0. Qed.

(** ** Grouping by vaccine *)

Lemma setdefault_append_keys bucket rec k :
  k ∈ (fst <$> setdefault_append bucket rec)
  ↔ k ∈ (fst <$> bucket) ∨ k = Vaccination.vaccine_id rec.
Proof.
  induction bucket as [|[vid recs] bucket IH]; simpl.
  - rewrite list_elem_of_singleton. split; [by right|]. by intros [?%not_elem_of_nil|].
  - case_bool_decide as Hvid; simpl.
    + rewrite !elem_of_cons. naive_solver.
    + rewrite !elem_of_cons, IH. naive_solver.
Qed.

Lemma setdefault_append_NoDup bucket rec :
  NoDup (fst <$> bucket) → NoDup (fst <$> setdefault_append bucket rec).
Proof.
  induction bucket as [|[vid recs] bucket IH]; simpl.
  - intros _. apply NoDup_singleton.
  - rewrite NoDup_cons. intros [Hvid Hb]. case_bool_decide as Heq; simpl.
    + by apply NoDup_cons.
    + apply NoDup_cons. split; [|by apply IH].
      rewrite setdefault_append_keys. by intros [?|?].
Qed.

Lemma setdefault_append_elem bucket rec k recs :
  NoDup (fst <$> bucket) →
  (k, recs) ∈ setdefault_append bucket rec →
  (k ≠ Vaccination.vaccine_id rec ∧ (k, recs) ∈ bucket)
  ∨ (k = Vaccination.vaccine_id rec
     ∧ ((∃ recs0, (k, recs0) ∈ bucket ∧ recs = recs0 ++ [rec])
        ∨ ((k ∉ fst <$> bucket) ∧ recs = [rec]))).
Proof.
  induction bucket as [|[vid recs0] bucket IH]; simpl.
  - intros _ [= -> ->]%list_elem_of_singleton. right. split; [done|]. right.
    split; [apply not_elem_of_nil|done].
  - rewrite NoDup_cons. intros [Hvid Hb]. case_bool_decide as Heq.
    + intros [[= -> ->]|Hin]%elem_of_cons.
      * right. split; [done|]. left. exists recs0. split; [left|done].
      * left. split; [|by right]. intros ->. apply Hvid.
        rewrite Heq. by apply (list_elem_of_fmap_2 fst) in Hin.
    + intros [[= -> ->]|Hin]%elem_of_cons.
      * left. split; [done|left].
      * destruct (IH Hb Hin) as [[? ?]|[-> [(r0 & ? & ->)|[Hk ->]]]].
        -- left. split; [done|by right].
        -- right. split; [done|]. left. exists r0. split; [by right|done].
        -- right. split; [done|]. right. split; [|done].
           rewrite elem_of_cons. by intros [?|?].
Qed.

Lemma setdefault_append_concat bucket rec :
  concat (snd <$> setdefault_append bucket rec) ≡ₚ concat (snd <$> bucket) ++ [rec].
Proof.
  induction bucket as [|[vid recs] bucket IH]; simpl; [done|].
  case_bool_decide; simpl.
  - rewrite <- !(assoc_L (++)). f_equiv. apply Permutation_app_comm.
  - by rewrite IH, (assoc_L (++)).
Qed.

Lemma filter_none {A} (P : A → Prop) `{∀ x, Decision (P x)} l :
  (∀ x, x ∈ l → ¬ P x) → filter P l = [].
Proof.
  induction l as [|x l IH]; [done|]. intros Hl.
  rewrite filter_cons_False by (apply Hl; left).
  apply IH. intros y Hy. apply Hl. by right.
Qed.

Lemma groups_step bucket l rec :
  groups bucket l → groups (setdefault_append bucket rec) (l ++ [rec]).
Proof.
  intros (Hnd & Hrecs & Hcov & Hperm). split_and!.
  - by apply setdefault_append_NoDup.
  - intros k recs Hin. rewrite filter_app, (filter_singleton _ rec l).
    destruct (setdefault_append_elem _ _ _ _ Hnd Hin)
      as [[Hk Hb]|[-> [(recs0 & Hb & ->)|[Hk ->]]]].
    + rewrite decide_False by done. rewrite app_nil_r. by apply Hrecs.
    + rewrite decide_True by done. destruct (Hrecs _ _ Hb) as [<- _].
      split; [done|]. by destruct recs0.
    + rewrite decide_True by done. split; [|done].
      rewrite (filter_none (λ r, Vaccination.vaccine_id r = Vaccination.vaccine_id rec) l);
        [done|].
      intros r Hr Heq. apply Hk. rewrite <- Heq. by apply Hcov.
  - intros r [Hr| ->%list_elem_of_singleton]%elem_of_app;
      apply setdefault_append_keys; [left; by apply Hcov|by right].
  - by rewrite setdefault_append_concat, Hperm.
Qed.

Lemma groups_foldl l' bucket l :
  groups bucket l → groups (foldl setdefault_append bucket l') (l ++ l').
Proof.
  revert bucket l. induction l' as [|rec l' IH]; intros bucket l Hg; simpl.
  - by rewrite app_nil_r.
  - rewrite (cons_middle rec l l'), (assoc_L (++)). by apply IH, groups_step.
Qed.

Lemma groups_bucket l : groups (foldl setdefault_append [] l) l.
Proof.
  apply (groups_foldl l [] []). split_and!; [apply NoDup_nil_2| | |done].
  - by intros k recs ?%not_elem_of_nil.
  - by intros r ?%not_elem_of_nil.
Qed.

(** ** The list view *)

Lemma for_each_Forall2 {A B} (f : A → outcome B) (P : A → B → Prop) l :
  (∀ x, x ∈ l → ∃ y, f x = Return y ∧ P x y) →
  ∃ ys, for_each f l = Return ys ∧ Forall2 P l ys.
Proof.
  induction l as [|x l IH]; intros Hf; simpl.
  - exists []. by split; [|constructor].
  - destruct (Hf x) as (y & Hy & HP); [left|].
    destruct IH as (ys & Hys & HPs); [intros z Hz; apply Hf; by right|].
    exists (y :: ys). rewrite Hy. run. rewrite Hys. by split; [|constructor].
Qed.

Lemma StronglySorted_filter {A} (R : relation A) (P : A → Prop) `{∀ x, Decision (P x)} l :
  StronglySorted R l → StronglySorted R (filter P l).
Proof.
  induction 1 as [|x l Hl IH Hx]; [constructor|].
  rewrite filter_cons. case_decide; [|done].
  constructor; [done|]. by apply Forall_filter_2.
Qed.

Lemma CardEntry_of_shows r :
  is_Some (Dose.of_value (Vaccination.dose r)) →
  ∃ e, CardEntry_of r = Return e ∧ shows r e.
Proof.
  intros [d Hd]. unfold CardEntry_of, DoseEnum_. rewrite Hd. run.
  eexists. split; [done|]. unfold shows. simpl.
  by rewrite (of_value_Some _ _ Hd).
Qed.

(** A block of the list view shows this item of the dictionary. *)
Lemma block_of_Return (dict : gmap string Vaccine.t) k recs :
  Forall (λ r, is_Some (Dose.of_value (Vaccination.dose r))) recs →
  ∃ b, block_of dict (k, recs) = Return b
       ∧ CardVaccineBlock.vaccine_id b = k
       ∧ CardVaccineBlock.vaccine_name b
         = match dict !! k with Some v => Vaccine.name v | None => k end
       ∧ Forall2 shows recs (CardVaccineBlock.entries b).
Proof.
  intros Hok. unfold block_of.
  destruct (for_each_Forall2 CardEntry_of shows recs) as (es & -> & Hes).
  { rewrite Forall_forall in Hok. intros r Hr. by apply CardEntry_of_shows, Hok. }
  run. by eexists.
Qed.

Lemma shows_applied_at recs es :
  Forall2 shows recs es →
  CardEntry.applied_at <$> es = Vaccination.applied_at <$> recs.
Proof.
  induction 1 as [|r e recs es (_ & _ & Hat & _) _ IH]; [done|].
  by rewrite !fmap_cons, Hat, IH.
Qed.

Section blocks.
Context (Q : string * list Vaccination.t → CardVaccineBlock.t → Prop).
Context (HQ : ∀ item b, Q item b →
                CardVaccineBlock.vaccine_id b = fst item
                ∧ Forall2 shows (snd item) (CardVaccineBlock.entries b)).

Lemma blocks_keys bucket blocks :
  Forall2 Q bucket blocks → CardVaccineBlock.vaccine_id <$> blocks = fst <$> bucket.
Proof.
  induction 1 as [|item b bucket blocks Hb _ IH]; [done|].
  rewrite !fmap_cons, IH. by destruct (HQ _ _ Hb) as [-> _].
Qed.

Lemma blocks_concat bucket blocks :
  Forall2 Q bucket blocks →
  Forall2 shows (concat (snd <$> bucket)) (concat (CardVaccineBlock.entries <$> blocks)).
Proof.
  induction 1 as [|item b bucket blocks Hb _ IH]; [constructor|].
  rewrite !fmap_cons. simpl. apply Forall2_app; [|done].
  by destruct (HQ _ _ Hb) as [_ ?].
Qed.

Lemma blocks_elem bucket blocks b :
  Forall2 Q bucket blocks → b ∈ blocks → ∃ item, item ∈ bucket ∧ Q item b.
Proof.
  induction 1 as [|item b' bucket blocks Hb _ IH]; [by intros ?%not_elem_of_nil|].
  intros [->|Hin]%elem_of_cons.
  - exists item. split; [left|done].
  - destruct (IH Hin) as (item' & ? & ?). exists item'. split; [by right|done].
Qed.
End blocks.

(** ** Sorting and mapping *)

Section merge_sort_fmap.
Context {A : Type} (R : relation A) `{∀ x y, Decision (R x y)} (f : A → A).
Context (Hf : ∀ x y, R (f x) (f y) ↔ R x y).

Lemma list_merge_fmap (l1 l2 : list A) :
  list_merge R (f <$> l1) (f <$> l2) = f <$> list_merge R l1 l2.
Proof.
  revert l2. induction l1 as [|x1 l1 IH1]; intros l2.
  { by rewrite fmap_nil, !list_merge_nil_l. }
  induction l2 as [|x2 l2 IH2].
  { by rewrite fmap_nil, !list_merge_nil_r. }
  rewrite !fmap_cons, !list_merge_cons.
  rewrite (decide_ext (R (f x1) (f x2)) (R x1 x2)) by apply Hf.
  case_decide.
  - rewrite fmap_cons. f_equal. apply (IH1 (x2 :: l2)).
  - rewrite fmap_cons. f_equal. apply IH2.
Qed.

Local Abbreviation map_stack :=
  (fmap (M:=list) (fmap (M:=option) (fmap (M:=list) f))) (only parsing).

Lemma merge_list_to_stack_fmap (st : list (option (list A))) (l : list A) :
  merge_list_to_stack R (map_stack st) (f <$> l)
  = map_stack (merge_list_to_stack R st l).
Proof.
  revert l. induction st as [|[l'|] st IH]; intros l; csimpl; [done| |done].
  f_equal. by rewrite list_merge_fmap, IH.
Qed.

Lemma merge_stack_fmap (st : list (option (list A))) :
  merge_stack R (map_stack st) = f <$> merge_stack R st.
Proof.
  induction st as [|[l|] st IH]; csimpl; [done| |done].
  by rewrite IH, list_merge_fmap.
Qed.

Lemma merge_sort_aux_fmap (st : list (option (list A))) (l : list A) :
  merge_sort_aux R (map_stack st) (f <$> l) = f <$> merge_sort_aux R st l.
Proof.
  revert st. induction l as [|x l IH]; intros st; csimpl; [apply merge_stack_fmap|].
  by rewrite <- IH, <- merge_list_to_stack_fmap.
Qed.

Lemma merge_sort_fmap (l : list A) : merge_sort R (f <$> l) = f <$> merge_sort R l.
Proof. apply (merge_sort_aux_fmap []). Qed.
End merge_sort_fmap.

Lemma find_fmap {A} (f : A → bool) (g : A → A) l :
  (∀ x, f (g x) = f x) → find f (g <$> l) = g <$> find f l.
Proof.
  intros Hfg. induction l as [|x l IH]; simpl; [done|].
  rewrite Hfg. by destruct (f x).
Qed.

Lemma for_each_ext {A B} (f g : A → outcome B) l :
  (∀ x, f x = g x) → for_each f l = for_each g l.
Proof. intros E. induction l as [|x l IH]; simpl; [done|]. by rewrite E, IH. Qed.

(** ** An undecodable allowed-doses text *)

Lemma allowed_list_restored v : allowed_list (restored v) = allowed_list v.
Proof. done. Qed.

Lemma first_missing_restored db pid vid dose :
  first_missing (restored_db db) pid vid dose = first_missing db pid vid dose.
Proof.
  unfold first_missing. apply find_ext. intros d. by apply bool_decide_ext.
Qed.

Lemma create_vaccination_restored payload enforce_sequence uuid4 utcnow db :
  create_vaccination payload enforce_sequence uuid4 utcnow (restored_db db)
  = (fst (create_vaccination payload enforce_sequence uuid4 utcnow db),
     restored_db (snd (create_vaccination payload enforce_sequence uuid4 utcnow db))).
Proof.
  rewrite !create_vaccination_run, first_missing_restored.
  change (people (restored_db db)) with (people db).
  change (vaccines (restored_db db)) with (restored <$> vaccines db).
  change (vaccinations (restored_db db)) with (vaccinations db).
  destruct (find _ (people db)); [|done].
  rewrite find_fmap by done. destruct (find _ (vaccines db)) as [v|]; [|done].
  cbn [fmap option_fmap option_map]. rewrite allowed_list_restored.
  destruct (py_in _ _) as [[]|]; [|done..].
  destruct (if enforce_sequence then _ else _); [done|].
  destruct (decide (on_file (restored_db db) _ _ _)) as [H1|H1],
    (decide (on_file db _ _ _)) as [H2|H2]; [done|by destruct H2|by destruct H1|].
  by case_decide.
Qed.

Lemma dict_restored (l : list Vaccine.t) (m : gmap string Vaccine.t) :
  foldl (λ m v, <[Vaccine.id v := v]> m) (restored <$> m) (restored <$> l)
  = restored <$> foldl (λ m v, <[Vaccine.id v := v]> m) m l.
Proof.
  revert m. induction l as [|v l IH]; intros m; csimpl; [done|].
  by rewrite <- IH, fmap_insert.
Qed.

Lemma block_of_restored (dict : gmap string Vaccine.t) item :
  block_of (restored <$> dict) item = block_of dict item.
Proof.
  destruct item as [vid recs]. unfold block_of. rewrite lookup_fmap.
  by destruct (dict !! vid).
Qed.

Lemma order_by_name_restored l :
  MatrixCol_of <$> order_by_name (restored <$> l) = MatrixCol_of <$> order_by_name l.
Proof.
  unfold order_by_name. rewrite merge_sort_fmap by done.
  by rewrite <- list_fmap_compose.
Qed.

Lemma get_card_restored pid format db :
  get_card pid format (restored_db db) = (fst (get_card pid format db), restored_db db).
Proof.
  rewrite !get_card_run.
  change (people (restored_db db)) with (people db).
  change (vaccines (restored_db db)) with (restored <$> vaccines db).
  change (records_of (restored_db db) pid) with (records_of db pid).
  rewrite order_by_name_restored.
  rewrite <- (fmap_empty restored), dict_restored.
  by rewrite (for_each_ext _ _ _ (block_of_restored _)).
Qed.

(** ** The scenario of [test_happy_path] *)

(** D1 is recorded (201), D1 again is a conflict (409), D2 is recorded, and
    the matrix view then has the cells of D1 and D2 filled in the column of
    the vaccine and no other cell of that column. *)
Example test_happy_path :
  let post d day rid db := create_vaccination (Ex.shot "v-hepb" d day) true rid 0 db in
  let db1 := snd (post D1 10 "r-1" Ex.db0) in
  let db2 := snd (post D2 41 "r-2" db1) in
  (∃ out, fst (post D1 10 "r-1" Ex.db0) = Return out)
  ∧ fst (post D1 11 "r-x" db1) = Raise (HTTPException 409 Dose_ja_registrada)
  ∧ (∃ out, fst (post D2 41 "r-2" db1) = Return out)
  ∧ ∃ out, fst (get_card "p-ana" "matrix" db2) = Return (CardMatrix out)
           ∧ CardMatrixOut.cols out
             = [MatrixCol.mk "v-bcg" "BCG"; MatrixCol.mk "v-hepb" "Hepatite B"]
           ∧ (λ cells, cells !! 1%nat) <$> CardMatrixOut.grid out
             = [Some (Some (MatrixCell.mk "r-1" 10 D1));
                Some (Some (MatrixCell.mk "r-2" 41 D2));
                Some None; Some None; Some None].
Proof.
  cbv zeta. split_and!; [eexists; by vm_compute|by vm_compute|eexists; by vm_compute|].
  eexists. split_and!; by vm_compute.
Qed.

(** [POST /vaccines] stores all of [DOSE_ORDER] when the payload gives no
    allowed doses or an empty list of them. *)
Lemma or_DOSE_ORDER_falsy : or_DOSE_ORDER None = DOSE_ORDER ∧ or_DOSE_ORDER (Some []) = DOSE_ORDER.
Proof. done. Qed.

(** * The claims *)

(** C1: with [enforce_sequence] on, a dose at index [k > 0] of the global
    order is accepted only if every label at indices [0 .. k-1] is already on
    file for that person and vaccine; a dose at index 0 passes the sequence
    check whatever the history is; and the labels required are those of the
    global order, not of the vaccine's allowed list: for the vaccine that
    allows D1, D2 and R1 only, with D1 and D2 on file, R1 is answered 409
    "Ordem invalida: R1 requer D3". *)
Theorem C1_sequence_prerequisites :
  (∀ payload uuid4 utcnow db out db' k,
     create_vaccination payload true uuid4 utcnow db = (Return out, db') →
     ORDER_INDEX !! VaccinationIn.dose payload = Some k → (0 < k)%nat →
     ∀ i d, (i < k)%nat → DOSE_ORDER !! i = Some d →
       on_file db (VaccinationIn.person_id payload) (VaccinationIn.vaccine_id payload) d)
  ∧ (∀ pid vid dose db,
       ORDER_INDEX !! dose = Some 0%nat →
       ensure_dose_order pid vid dose db = (Return (), db))
  ∧ (fst (db_get_Vaccine "v-bcg" Ex.db2)
       = Return (Some (Vaccine.mk "v-bcg" "BCG" "bcg" (Document (values_of [D1; D2; R1]))))
     ∧ on_file Ex.db2 "p-ana" "v-bcg" D1
     ∧ on_file Ex.db2 "p-ana" "v-bcg" D2
     ∧ create_vaccination (Ex.shot "v-bcg" R1 80) true "r-9" 9 Ex.db2
       = (Raise (HTTPException 409 (Ordem_invalida R1 D3)), Ex.db2)).
Proof.
  split_and!.
  - intros payload uuid4 utcnow db out db' k Hrun Hk _ i d Hi Hd.
    rewrite create_vaccination_run in Hrun.
    destruct (find _ (people db)); [|done].
    destruct (find _ (vaccines db)); [|done].
    destruct (py_in _ _) as [[]|]; [|done..].
    destruct (first_missing _ _ _ _) eqn:Hmiss; [done|].
    rewrite first_missing_None in Hmiss. apply Hmiss.
    apply DOSE_ORDER_lookup_Some in Hd as ->.
    apply precedes_to_nat. rewrite ORDER_INDEX_lookup in Hk. by injection Hk as ->.
  - intros pid vid dose db Hk. rewrite ensure_dose_order_run.
    destruct (first_missing _ _ _ _) as [d|] eqn:Hmiss; [|done].
    apply first_missing_Some in Hmiss as ((i & k & _ & Hk' & Hlt) & _).
    rewrite Hk in Hk'. injection Hk' as <-. lia.
  - compute_done.
  - compute_done.
  - compute_done.
  - compute_done.
Qed.

Lemma C1_sequence_prerequisites_witness :
  on_file Ex.db2 "p-ana" "v-hepb" D1 ∧ on_file Ex.db2 "p-ana" "v-hepb" D2.
Proof.
  pose proof (proj1 C1_sequence_prerequisites (Ex.shot "v-hepb" D3 80) "r-9" 9 Ex.db2
    (VaccinationOut.mk "r-9" "p-ana" "v-hepb" D3 80 None None 9)
    (mkDB (people Ex.db2) (vaccines Ex.db2)
       (vaccinations Ex.db2 ++ [record_of (Ex.shot "v-hepb" D3 80) "r-9" 9]))
    2%nat) as H.
  split.
  - apply (H ltac:(compute_done) ltac:(compute_done) ltac:(lia) 0%nat D1);
      [lia|reflexivity].
  - apply (H ltac:(compute_done) ltac:(compute_done) ltac:(lia) 1%nat D2);
      [lia|reflexivity].
Defined.

(** C2: for a submission whose person and vaccine exist and whose vaccine
    has a list of allowed doses, the answer is 422 "Dose nao permitida"
    exactly when the dose's value is not in that list.  An empty list
    rejects every dose, and the answer is the same with [enforce_sequence]
    on and off. *)
Theorem C2_dose_not_allowed_iff payload enforce_sequence uuid4 utcnow db v items :
  let dose := VaccinationIn.dose payload in
  let rejected flag :=
    create_vaccination payload flag uuid4 utcnow db
    = (Raise (HTTPException 422 (Dose_nao_permitida dose (Vaccine.name v))), db) in
  VaccinationIn.person_id payload ∈ Person.id <$> people db →
  db_get_Vaccine (VaccinationIn.vaccine_id payload) db = (Return (Some v), db) →
  allowed_list v = JArray items →
  (rejected enforce_sequence ↔ JString (Dose.value dose) ∉ items)
  ∧ (items = [] → rejected enforce_sequence)
  ∧ (rejected true ↔ rejected false).
Proof.
  intros dose rejected [p Hp]%find_key_is_Some Hv%db_get_Vaccine_Some Hitems.
  assert (∀ flag, rejected flag ↔ JString (Dose.value dose) ∉ items) as Hiff.
  { intros flag. unfold rejected. rewrite create_vaccination_run, Hp, Hv, Hitems.
    simpl. fold dose. rewrite <- existsb_eq_str.
    destruct (existsb _ _).
    - split; [|done]. destruct (if flag then _ else _); [done|].
      by repeat case_decide.
    - split; [by intros _ ?|done]. }
  split_and!.
  - apply Hiff.
  - intros ->. apply Hiff. apply not_elem_of_nil.
  - by rewrite !Hiff.
Qed.

Lemma C2_dose_not_allowed_iff_witness :
  "p-ana" ∈ Person.id <$> people Ex.db2
  ∧ create_vaccination (Ex.shot "v-hepb" R2 50) true "r-9" 9 Ex.db2
    = (Raise (HTTPException 422 (Dose_nao_permitida R2 "Hepatite B")), Ex.db2).
Proof.
  split; [compute_done|].
  destruct (C2_dose_not_allowed_iff (Ex.shot "v-hepb" R2 50) true "r-9" 9 Ex.db2
              (Vaccine.mk "v-hepb" "Hepatite B" "hepb"
                 (Document (values_of [D1; D2; D3; R1])))
              [JString "D1"; JString "D2"; JString "D3"; JString "R1"])
    as [Hiff _].
  - compute_done.
  - compute_done.
  - compute_done.
  - apply Hiff. rewrite !not_elem_of_cons.
    split_and!; [discriminate..|apply not_elem_of_nil].
Defined.

(** C3, as the code has it: in every state the API can reach, no two dose
    records share (person, vaccine, dose label), and every request keeps it
    so.  A submission whose triple is already on file is never accepted and
    writes nothing.  When its person and its vaccine exist, the answer is
    that of the first check that fails: 422 "Dose nao permitida" if the dose
    is outside the allowed list; otherwise, under [enforce_sequence] with an
    earlier dose missing, 409 "Ordem invalida" naming the first missing
    dose; otherwise 409 "Dose ja registrada". *)
Theorem C3_unique_doses_invariant :
  (∀ db, reachable db → unique_doses db)
  ∧ (∀ req db, unique_doses db → unique_doses (handle req db))
  ∧ (∀ payload enforce_sequence uuid4 utcnow db,
       let pid := VaccinationIn.person_id payload in
       let vid := VaccinationIn.vaccine_id payload in
       let dose := VaccinationIn.dose payload in
       on_file db pid vid dose →
       (∃ e, create_vaccination payload enforce_sequence uuid4 utcnow db = (Raise e, db))
       ∧ (∀ v, pid ∈ Person.id <$> people db →
               db_get_Vaccine vid db = (Return (Some v), db) →
               (py_in (Dose.value dose) (allowed_list v) = Return false →
                create_vaccination payload enforce_sequence uuid4 utcnow db
                = (Raise (HTTPException 422 (Dose_nao_permitida dose (Vaccine.name v))), db))
               ∧ (py_in (Dose.value dose) (allowed_list v) = Return true →
                  enforce_sequence = true →
                  (∃ d, precedes d dose ∧ ¬ on_file db pid vid d) →
                  ∃ m, precedes m dose
                       ∧ ¬ on_file db pid vid m
                       ∧ (∀ d, precedes d m → on_file db pid vid d)
                       ∧ create_vaccination payload enforce_sequence uuid4 utcnow db
                         = (Raise (HTTPException 409 (Ordem_invalida dose m)), db))
               ∧ (py_in (Dose.value dose) (allowed_list v) = Return true →
                  (enforce_sequence = true →
                   ∀ d, precedes d dose → on_file db pid vid d) →
                  create_vaccination payload enforce_sequence uuid4 utcnow db
                  = (Raise (HTTPException 409 Dose_ja_registrada), db)))).
Proof.
  split_and!.
  - induction 1; [apply NoDup_nil_2|]. by apply handle_unique_doses.
  - apply handle_unique_doses.
  - cbv zeta. intros payload flag uuid4 utcnow db Hdup. split.
    + rewrite create_vaccination_run.
      destruct (find _ (people db)); [|by eauto].
      destruct (find _ (vaccines db)); [|by eauto].
      destruct (py_in _ _) as [[]|]; [|by eauto..].
      destruct (if flag then _ else _); [by eauto|].
      case_decide; [by eauto|done].
    + intros v [p Hp]%find_key_is_Some Hv%db_get_Vaccine_Some. split_and!.
      * intros Hin. by rewrite create_vaccination_run, Hp, Hv, Hin.
      * intros Hin -> (d & Hd & Hmiss).
        destruct (first_missing_is_Some _ _ _ _ d Hd Hmiss) as [m Hm].
        exists m. rewrite create_vaccination_run, Hp, Hv, Hin, Hm.
        by apply first_missing_Some in Hm as (? & ? & ?).
      * intros Hin Hseq.
        rewrite create_vaccination_run, Hp, Hv, Hin.
        match goal with
        | |- context [if flag then ?m else None] =>
            assert ((if flag then m else None) = None) as ->
        end.
        { destruct flag; [|done]. by apply first_missing_None, Hseq. }
        by case_decide.
Qed.

Lemma C3_unique_doses_invariant_witness :
  unique_doses Ex.db2
  ∧ create_vaccination (Ex.shot "v-hepb" D1 50) true "r-9" 9 Ex.db2
    = (Raise (HTTPException 409 Dose_ja_registrada), Ex.db2)
  ∧ ∃ m, create_vaccination (Ex.shot "v-hepb" D2 50) true "r-9" 9 Ex.db_d2
         = (Raise (HTTPException 409 (Ordem_invalida D2 m)), Ex.db_d2).
Proof.
  split_and!.
  - apply (proj1 C3_unique_doses_invariant), reachable_db2.
  - apply (proj2 (proj2 (proj2 (proj2 (proj2 C3_unique_doses_invariant)
                   (Ex.shot "v-hepb" D1 50) true "r-9" 9 Ex.db2 ltac:(compute_done))
             (Vaccine.mk "v-hepb" "Hepatite B" "hepb"
                (Document (values_of [D1; D2; D3; R1])))
             ltac:(compute_done) ltac:(compute_done)))).
    + compute_done.
    + intros _ d (i & k & _ & Hk & Hlt). vm_compute in Hk. injection Hk as <-. lia.
  - destruct (proj1 (proj2 (proj2 (proj2 (proj2 C3_unique_doses_invariant)
                   (Ex.shot "v-hepb" D2 50) true "r-9" 9 Ex.db_d2 ltac:(compute_done))
             (Vaccine.mk "v-hepb" "Hepatite B" "hepb"
                (Document (values_of [D1; D2; D3; R1])))
             ltac:(compute_done) ltac:(compute_done))))
      as (m & _ & _ & _ & Hrun).
    + compute_done.
    + reflexivity.
    + exists D1. split; [|compute_done].
      exists 0%nat, 1%nat. split; [reflexivity|]. split; [reflexivity|]. lia.
    + exists m. exact Hrun.
Defined.

(** A duplicate is not always answered as a duplicate (C3 read to the
    letter): in a state the API reaches, Ana has a second dose on file,
    recorded with the sequence check off; the same dose submitted again with
    the sequence check on is answered 409 "Ordem invalida: D2 requer D1",
    not 409 "Dose ja registrada". *)
Lemma C3_counterexample :
  reachable Ex.db_d2
  ∧ on_file Ex.db_d2 "p-ana" "v-hepb" D2
  ∧ create_vaccination (Ex.shot "v-hepb" D2 50) true "r-9" 9 Ex.db_d2
    = (Raise (HTTPException 409 (Ordem_invalida D2 D1)), Ex.db_d2)
  ∧ fst (create_vaccination (Ex.shot "v-hepb" D2 50) true "r-9" 9 Ex.db_d2)
    ≠ Raise (HTTPException 409 Dose_ja_registrada).
Proof.
  split_and!; [apply reachable_db_d2|compute_done..|].
  by vm_compute.
Qed.

(** C4: the matrix view of an existing person has the five rows of
    [DOSE_ORDER] and one column per vaccine of the catalog, carrying that
    vaccine's identifier and name, in ascending order of name; the grid has
    five rows with one cell per column.  The cell at a row and a column is
    filled exactly when the person has a record with the row's dose label
    for the column's vaccine, and then shows such a record; so for every
    vaccine of the catalog and every dose label there is a cell, in that
    label's row and that vaccine's column, which is filled exactly when the
    person has that dose of that vaccine on file. *)
Theorem C4_matrix_view pid format db p :
  db_get_Person pid db = (Return (Some p), db) →
  format ≠ "list"%string →
  ∃ out,
    get_card pid format db = (Return (CardMatrix out), db)
    ∧ CardMatrixOut.rows out = [D1; D2; D3; R1; R2]
    ∧ length (CardMatrixOut.grid out) = 5%nat
    ∧ CardMatrixOut.cols out
      ≡ₚ (λ v, MatrixCol.mk (Vaccine.id v) (Vaccine.name v)) <$> vaccines db
    ∧ Sorted col_le (CardMatrixOut.cols out)
    ∧ Forall (λ cells, length cells = length (vaccines db)) (CardMatrixOut.grid out)
    ∧ (∀ i j d c,
        CardMatrixOut.rows out !! i = Some d →
        CardMatrixOut.cols out !! j = Some c →
        ∃ x, cell out i j = Some x
             ∧ (is_Some x ↔ on_file db pid (MatrixCol.vaccine_id c) d)
             ∧ ∀ mc, x = Some mc →
                 MatrixCell.dose mc = d
                 ∧ ∃ r, r ∈ vaccinations db
                        ∧ Vaccination.person_id r = pid
                        ∧ Vaccination.vaccine_id r = MatrixCol.vaccine_id c
                        ∧ Vaccination.dose r = Dose.value d
                        ∧ MatrixCell.record_id mc = Vaccination.id r
                        ∧ MatrixCell.applied_at mc = Vaccination.applied_at r)
    ∧ (∀ v d, v ∈ vaccines db → d ∈ DOSE_ORDER →
        ∃ i j x,
          CardMatrixOut.rows out !! i = Some d
          ∧ CardMatrixOut.cols out !! j
            = Some (MatrixCol.mk (Vaccine.id v) (Vaccine.name v))
          ∧ cell out i j = Some x
          ∧ (is_Some x ↔ on_file db pid (Vaccine.id v) d)).
Proof.
  intros Hp%db_get_Person_Some Hfmt.
  rewrite get_card_run, Hp, bool_decide_eq_false_2 by done.
  set (by_key := foldl _ ∅ (records_of db pid)).
  set (cols := MatrixCol_of <$> order_by_name (vaccines db)).
  erewrite (for_each_Return _ (λ d, cell_at by_key d <$> cols)).
  2: { intros d _. apply for_each_Return. intros c _. apply cell_of_Return. }
  eexists. split; [reflexivity|].
  cbn [CardMatrixOut.rows CardMatrixOut.cols CardMatrixOut.grid].
  assert (length cols = length (vaccines db)) as Hlen.
  { unfold cols, order_by_name. by rewrite length_fmap, merge_sort_Permutation. }
  assert (cols ≡ₚ (λ v, MatrixCol.mk (Vaccine.id v) (Vaccine.name v)) <$> vaccines db)
    as Hcols.
  { unfold cols, order_by_name. rewrite merge_sort_Permutation. reflexivity. }
  assert (∀ i j d c,
            DOSE_ORDER !! i = Some d → cols !! j = Some c →
            cell (CardMatrixOut.mk DOSE_ORDER cols
                    ((λ d, cell_at by_key d <$> cols) <$> DOSE_ORDER)) i j
            = Some (cell_at by_key d c)) as Hcell.
  { intros i j d c Hd Hc. unfold cell. cbn [CardMatrixOut.grid].
    rewrite list_lookup_fmap, Hd. simpl. by rewrite list_lookup_fmap, Hc. }
  assert (∀ d c, is_Some (cell_at by_key d c)
                 ↔ on_file db pid (MatrixCol.vaccine_id c) d) as Hfilled.
  { intros d c. unfold cell_at. rewrite fmap_is_Some. split.
    - intros [r [[[Hr ?]%elem_of_records_of [= ? ?]]|E]%by_key_lookup_Some];
        [|by rewrite lookup_empty in E].
      by exists r.
    - intros (r & Hr & Hpid & Hvid & Hdose).
      apply by_key_lookup_is_Some. left. exists r.
      rewrite elem_of_records_of. by rewrite Hvid, Hdose. }
  split_and!; try done.
  - unfold cols. eapply Sorted_fmap, Sorted_merge_sort; [|apply _].
    by intros v1 v2.
  - rewrite Forall_forall. intros cells (d & -> & _)%list_elem_of_fmap.
    by rewrite length_fmap.
  - intros i j d c Hd Hc. exists (cell_at by_key d c).
    split_and!; [by apply Hcell|apply Hfilled|].
    unfold cell_at. intros mc [r [E ->]]%fmap_Some. simpl.
    apply by_key_lookup_Some in E
      as [[[Hr ?]%elem_of_records_of [= ? ?]]|E]; [|by rewrite lookup_empty in E].
    split; [done|]. by exists r.
  - intros v d Hv [i Hd]%list_elem_of_lookup.
    assert (MatrixCol.mk (Vaccine.id v) (Vaccine.name v) ∈ cols) as [j Hc]%list_elem_of_lookup.
    { rewrite Hcols. apply list_elem_of_fmap. by exists v. }
    exists i, j, (cell_at by_key d (MatrixCol.mk (Vaccine.id v) (Vaccine.name v))).
    split_and!; [done|done|by apply Hcell|apply Hfilled].
Qed.

Lemma C4_matrix_view_witness :
  ∃ out, fst (get_card "p-ana" "matrix" Ex.db2) = Return (CardMatrix out)
         ∧ length (CardMatrixOut.grid out) = 5%nat
         ∧ ∃ i j x, CardMatrixOut.cols out !! j = Some (MatrixCol.mk "v-hepb" "Hepatite B")
                    ∧ cell out i j = Some x
                    ∧ is_Some x.
Proof.
  destruct (C4_matrix_view "p-ana" "matrix" Ex.db2
              (Person.mk "p-ana" "Ana Paula" "123" "F" 30))
    as (out & Hrun & _ & Hlen & _ & _ & _ & _ & Hcatalog).
  - compute_done.
  - compute_done.
  - exists out. split; [rewrite Hrun; reflexivity|]. split; [exact Hlen|].
    destruct (Hcatalog (Vaccine.mk "v-hepb" "Hepatite B" "hepb"
                          (Document (values_of [D1; D2; D3; R1]))) D1)
      as (i & j & x & _ & Hcol & Hx & Hiff).
    + vm_compute. left.
    + left.
    + exists i, j, x. split; [exact Hcol|]. split; [exact Hx|].
      apply Hiff. compute_done.
Defined.

(** C5: in every state the API can reach, the list view of an existing
    person has one block per vaccine the person has a record of and no other
    block; each block is not empty, shows exactly the person's records of
    that vaccine, in ascending order of the applied date, under the name of
    that vaccine of the catalog; and the entries of all blocks together show
    exactly the person's records. *)
Theorem C5_list_view pid db p :
  reachable db →
  db_get_Person pid db = (Return (Some p), db) →
  ∃ out,
    get_card pid "list" db = (Return (CardList out), db)
    ∧ NoDup (CardVaccineBlock.vaccine_id <$> CardListOut.vaccines out)
    ∧ (∀ vid, vid ∈ (CardVaccineBlock.vaccine_id <$> CardListOut.vaccines out)
              ↔ ∃ r, r ∈ vaccinations db
                     ∧ Vaccination.person_id r = pid
                     ∧ Vaccination.vaccine_id r = vid)
    ∧ (∀ b, b ∈ CardListOut.vaccines out →
         CardVaccineBlock.entries b ≠ []
         ∧ Sorted Z.le (CardEntry.applied_at <$> CardVaccineBlock.entries b)
         ∧ (∃ recs, Forall2 shows recs (CardVaccineBlock.entries b)
                    ∧ recs ≡ₚ filter (λ r, Vaccination.vaccine_id r
                                           = CardVaccineBlock.vaccine_id b)
                               (records_of db pid))
         ∧ (∃ v, v ∈ vaccines db
                 ∧ Vaccine.id v = CardVaccineBlock.vaccine_id b
                 ∧ Vaccine.name v = CardVaccineBlock.vaccine_name b))
    ∧ (∃ recs, recs ≡ₚ records_of db pid
               ∧ Forall2 shows recs
                   (concat (CardVaccineBlock.entries <$> CardListOut.vaccines out))).
Proof.
  intros Hreach Hp%db_get_Person_Some.
  pose proof (reachable_stored_enums_ok _ Hreach) as [Hdoses Hsexes].
  pose proof (reachable_vaccine_fk_ok _ Hreach) as Hfk.
  rewrite get_card_run, Hp, bool_decide_eq_true_2 by done.
  set (dict := foldl _ ∅ (vaccines db)).
  set (sorted := order_by_applied_at (records_of db pid)).
  assert (sorted ≡ₚ records_of db pid) as Hperm by apply merge_sort_Permutation.
  assert (StronglySorted applied_at_le sorted) as Hsorted
    by (apply StronglySorted_merge_sort; apply _).
  assert (∀ r, r ∈ sorted ↔ r ∈ vaccinations db ∧ Vaccination.person_id r = pid) as Hin.
  { intros r. by rewrite Hperm, elem_of_records_of. }
  destruct (groups_bucket sorted) as (Hnd & Hrecs & Hcov & Hcat).
  set (bucket := foldl setdefault_append [] sorted) in *.
  set (Q := λ (item : string * list Vaccination.t) (b : CardVaccineBlock.t),
         CardVaccineBlock.vaccine_id b = fst item
         ∧ CardVaccineBlock.vaccine_name b
           = match dict !! fst item with Some v => Vaccine.name v | None => fst item end
         ∧ Forall2 shows (snd item) (CardVaccineBlock.entries b)).
  assert (∀ item b, Q item b →
            CardVaccineBlock.vaccine_id b = fst item
            ∧ Forall2 shows (snd item) (CardVaccineBlock.entries b)) as HQ
    by (intros item b (? & _ & ?); done).
  destruct (for_each_Forall2 (block_of dict) Q bucket) as (blocks & -> & Hblocks).
  { intros [k recs] Hitem. apply block_of_Return.
    destruct (Hrecs _ _ Hitem) as [-> _].
    apply Forall_filter_2. rewrite Forall_forall in Hdoses |- *.
    intros r Hr. by apply Hdoses, Hin. }
  apply find_key_Some in Hp as [Hp Hpid].
  rewrite Forall_forall in Hsexes. destruct (Hsexes p Hp) as [sex Hsex].
  unfold PersonOut_of, GenderEnum_. rewrite Hsex. run.
  eexists. split; [reflexivity|]. cbn [CardListOut.vaccines].
  rewrite (blocks_keys Q HQ _ _ Hblocks). split_and!.
  - done.
  - intros vid. split.
    + intros ([k recs] & -> & Hitem)%list_elem_of_fmap. simpl.
      destruct (Hrecs _ _ Hitem) as [-> Hne].
      destruct (filter _ sorted) as [|r rs] eqn:E; [done|].
      assert (r ∈ filter (λ r, Vaccination.vaccine_id r = k) sorted) as Hr
        by (rewrite E; left).
      apply list_elem_of_filter in Hr as [Hk Hr]. apply Hin in Hr as [? ?].
      by exists r.
    + intros (r & Hr & Hrp & <-). by apply Hcov, Hin.
  - intros b Hb.
    destruct (blocks_elem Q _ _ _ Hblocks Hb) as ([k recs] & Hitem & Hk & Hname & Hshows).
    simpl in Hk, Hname, Hshows. destruct (Hrecs _ _ Hitem) as [-> Hne].
    split_and!.
    + intros Hnil. rewrite Hnil in Hshows. by apply Forall2_nil_inv_r in Hshows.
    + rewrite (shows_applied_at _ _ Hshows).
      eapply Sorted_fmap, StronglySorted_Sorted, StronglySorted_filter, Hsorted.
      by intros r1 r2.
    + eexists. split; [done|]. by rewrite Hk, Hperm.
    + destruct (filter _ sorted) as [|r rs] eqn:E; [done|].
      assert (r ∈ filter (λ r, Vaccination.vaccine_id r = k) sorted) as Hr
        by (rewrite E; left).
      apply list_elem_of_filter in Hr as [Hrk [Hr _]%Hin].
      unfold vaccine_fk_ok in Hfk.
      rewrite Forall_forall in Hfk. specialize (Hfk r Hr). rewrite Hrk in Hfk.
      destruct (by_key_lookup_is_Some Vaccine.id (vaccines db) ∅ k) as [v Hv].
      { left. apply list_elem_of_fmap in Hfk as (v & ? & ?). by exists v. }
      fold dict in Hv. rewrite Hv in Hname. exists v.
      apply by_key_lookup_Some in Hv as [[? ?]|Hv]; [|by rewrite lookup_empty in Hv].
      split_and!; congruence.
  - exists (concat (snd <$> bucket)). split; [by rewrite Hcat|].
    by apply (blocks_concat Q HQ).
Qed.

Lemma C5_list_view_witness :
  ∃ out, fst (get_card "p-ana" "list" Ex.db2) = Return (CardList out)
         ∧ NoDup (CardVaccineBlock.vaccine_id <$> CardListOut.vaccines out).
Proof.
  destruct (C5_list_view "p-ana" Ex.db2 (Person.mk "p-ana" "Ana Paula" "123" "F" 30))
    as (out & Hrun & Hnd & _).
  - apply reachable_db2.
  - compute_done.
  - exists out. split; [|exact Hnd]. rewrite Hrun. reflexivity.
Defined.

(** C6: the checks run in the order allowed dose, sequence, duplicate, and
    the first that fails gives the answer.  For a submission whose person
    and vaccine exist: a dose outside the allowed list is answered 422
    whether or not it is also a duplicate; an allowed dose with a missing
    earlier dose is answered 409 "Ordem invalida" under [enforce_sequence],
    whether or not it is also a duplicate; and a duplicate is answered 409
    "Dose ja registrada" once the two earlier checks pass. *)
Theorem C6_first_failing_check payload uuid4 utcnow db v :
  let pid := VaccinationIn.person_id payload in
  let vid := VaccinationIn.vaccine_id payload in
  let dose := VaccinationIn.dose payload in
  pid ∈ Person.id <$> people db →
  db_get_Vaccine vid db = (Return (Some v), db) →
  on_file db pid vid dose →
  (py_in (Dose.value dose) (allowed_list v) = Return false →
   ∀ flag, create_vaccination payload flag uuid4 utcnow db
           = (Raise (HTTPException 422 (Dose_nao_permitida dose (Vaccine.name v))), db))
  ∧ (py_in (Dose.value dose) (allowed_list v) = Return true →
     (∃ d, precedes d dose ∧ ¬ on_file db pid vid d) →
     ∃ d, precedes d dose ∧ ¬ on_file db pid vid d
          ∧ create_vaccination payload true uuid4 utcnow db
            = (Raise (HTTPException 409 (Ordem_invalida dose d)), db))
  ∧ (py_in (Dose.value dose) (allowed_list v) = Return true →
     ∀ flag, (flag = true → ∀ d, precedes d dose → on_file db pid vid d) →
             create_vaccination payload flag uuid4 utcnow db
             = (Raise (HTTPException 409 Dose_ja_registrada), db)).
Proof.
  cbv zeta. intros [p Hp]%find_key_is_Some Hv%db_get_Vaccine_Some Hdup.
  split_and!.
  - intros Hin flag. by rewrite create_vaccination_run, Hp, Hv, Hin.
  - intros Hin (d & Hd & Hmiss).
    destruct (first_missing_is_Some _ _ _ _ d Hd Hmiss) as [m Hm].
    exists m. rewrite create_vaccination_run, Hp, Hv, Hin, Hm.
    by apply first_missing_Some in Hm as (? & ? & _).
  - intros Hin flag Hseq. rewrite create_vaccination_run, Hp, Hv, Hin.
    match goal with
    | |- context [if flag then ?m else None] =>
        assert ((if flag then m else None) = None) as ->
    end.
    { destruct flag; [|done]. by apply first_missing_None, Hseq. }
    by case_decide.
Qed.

Lemma C6_first_failing_check_witness :
  on_file Ex.db_d2 "p-ana" "v-hepb" D2
  ∧ ∃ d, create_vaccination (Ex.shot "v-hepb" D2 50) true "r-9" 9 Ex.db_d2
         = (Raise (HTTPException 409 (Ordem_invalida D2 d)), Ex.db_d2).
Proof.
  split; [compute_done|].
  destruct (C6_first_failing_check (Ex.shot "v-hepb" D2 50) "r-9" 9 Ex.db_d2
              (Vaccine.mk "v-hepb" "Hepatite B" "hepb"
                 (Document (values_of [D1; D2; D3; R1]))))
    as (_ & Hseq & _).
  - compute_done.
  - compute_done.
  - compute_done.
  - destruct Hseq as (d & _ & _ & Hd).
    + compute_done.
    + exists D1. split; [|compute_done].
      exists 0%nat, 1%nat. by split_and!; [..|lia].
    + by exists d.
Defined.

(** C7: a vaccine whose stored allowed doses do not decode is read as
    allowing all of [DOSE_ORDER]: [allowed_list] returns the five values and
    raises nothing, every dose passes [ensure_dose_allowed], the vaccine is
    reported with the five doses, and submissions and card views answer
    exactly as they do on the tables where such texts are replaced by the
    document of the five values. *)
Theorem C7_undecodable_falls_back v raw :
  Vaccine.allowed_doses v = Undecodable raw →
  allowed_list v = JArray [JString "D1"; JString "D2"; JString "D3"; JString "R1"; JString "R2"]
  ∧ (∀ dose, ensure_dose_allowed v dose = Return ())
  ∧ VaccineOut_from_model v
    = Return (VaccineOut.mk (Vaccine.id v) (Vaccine.name v) (Vaccine.code v) DOSE_ORDER)
  ∧ restored v
    = Vaccine.mk (Vaccine.id v) (Vaccine.name v) (Vaccine.code v)
        (json_dumps (values_of DOSE_ORDER))
  ∧ (∀ payload enforce_sequence uuid4 utcnow db,
       create_vaccination payload enforce_sequence uuid4 utcnow (restored_db db)
       = (fst (create_vaccination payload enforce_sequence uuid4 utcnow db),
          restored_db (snd (create_vaccination payload enforce_sequence uuid4 utcnow db))))
  ∧ (∀ pid format db,
       get_card pid format (restored_db db) = (fst (get_card pid format db), restored_db db)).
Proof.
  intros Htext.
  assert (allowed_list v = values_of DOSE_ORDER) as Hlist
    by (unfold allowed_list; by rewrite Htext).
  split_and!.
  - done.
  - intros dose. rewrite ensure_dose_allowed_run, Hlist. by destruct dose.
  - unfold VaccineOut_from_model. by rewrite Hlist.
  - unfold restored. by rewrite Hlist.
  - apply create_vaccination_restored.
  - apply get_card_restored.
Qed.

Lemma C7_undecodable_falls_back_witness :
  ensure_dose_allowed (Vaccine.mk "v-x" "X" "x" (Undecodable "[D1,")) R2 = Return ().
Proof.
  apply (proj1 (proj2 (C7_undecodable_falls_back
                         (Vaccine.mk "v-x" "X" "x" (Undecodable "[D1,")) "[D1,"
                         eq_refl))).
Defined.

(** C8: a rejected submission writes nothing.  Whenever the endpoint
    raises, the tables are the ones it started from; each [HTTPException] it
    raises is one of the five typed rejections (person not found, vaccine not
    found, dose not allowed, sequence, duplicate); any other exception is a
    clash of the drawn identifier or an allowed-doses document that is no
    container; and the tables change only when the response is returned,
    after every check has passed, by exactly the new row. *)
Theorem C8_rejection_leaves_store_unchanged payload enforce_sequence uuid4 utcnow db r db' :
  let pid := VaccinationIn.person_id payload in
  let vid := VaccinationIn.vaccine_id payload in
  let dose := VaccinationIn.dose payload in
  create_vaccination payload enforce_sequence uuid4 utcnow db = (r, db') →
  (∀ e, r = Raise e → db' = db)
  ∧ (∀ code d, r = Raise (HTTPException code d) →
       (code = 404%nat ∧ d = Pessoa_nao_encontrada ∧ pid ∉ Person.id <$> people db)
       ∨ (code = 404%nat ∧ d = Vacina_nao_encontrada ∧ vid ∉ Vaccine.id <$> vaccines db)
       ∨ (code = 422%nat ∧ ∃ v, db_get_Vaccine vid db = (Return (Some v), db)
                               ∧ d = Dose_nao_permitida dose (Vaccine.name v)
                               ∧ py_in (Dose.value dose) (allowed_list v) = Return false)
       ∨ (code = 409%nat ∧ enforce_sequence = true
          ∧ ∃ m, d = Ordem_invalida dose m ∧ ¬ on_file db pid vid m)
       ∨ (code = 409%nat ∧ d = Dose_ja_registrada ∧ on_file db pid vid dose))
  ∧ (∀ e, r = Raise e →
       (∃ code d, e = HTTPException code d)
       ∨ (e = IntegrityError ∧ uuid4 ∈ Vaccination.id <$> vaccinations db)
       ∨ (e = TypeError
          ∧ ∃ v, db_get_Vaccine vid db = (Return (Some v), db)
                 ∧ py_in (Dose.value dose) (allowed_list v) = Raise TypeError))
  ∧ (∀ out, r = Return out →
       db' = mkDB (people db) (vaccines db)
               (vaccinations db ++ [record_of payload uuid4 utcnow])
       ∧ pid ∈ Person.id <$> people db
       ∧ (∃ v, db_get_Vaccine vid db = (Return (Some v), db)
               ∧ py_in (Dose.value dose) (allowed_list v) = Return true)
       ∧ (enforce_sequence = true → ∀ d, precedes d dose → on_file db pid vid d)
       ∧ ¬ on_file db pid vid dose)
  ∧ (db' ≠ db → ∃ out, r = Return out).
Proof.
  cbv zeta. rewrite create_vaccination_run.
  destruct (find _ (people db)) as [p|] eqn:Hp.
  2: { apply find_key_None in Hp. intros [= <- <-].
       split_and!; try done; [naive_solver|]. intros ? [= <-]. left. eauto. }
  apply find_key_Some in Hp as [Hp Hpid].
  destruct (find _ (vaccines db)) as [v|] eqn:Hv.
  2: { apply find_key_None in Hv. intros [= <- <-].
       split_and!; try done; [naive_solver|]. intros ? [= <-]. left. eauto. }
  assert (db_get_Vaccine (VaccinationIn.vaccine_id payload) db = (Return (Some v), db))
    as Hget by (unfold db_get_Vaccine; run; by rewrite Hv).
  destruct (py_in _ _) as [[]|e0] eqn:Hin.
  - destruct (if enforce_sequence then _ else _) as [m|] eqn:Hm.
    { destruct enforce_sequence; [|done].
      apply first_missing_Some in Hm as (_ & Hm & _). intros [= <- <-].
      split_and!; try done.
      - intros ?? [= <- <-]. do 3 right. left. eauto.
      - intros ? [= <-]. left. eauto. }
    case_decide as Hdup.
    { intros [= <- <-]. split_and!; try done; [naive_solver|].
      intros ? [= <-]. left. eauto. }
    case_decide as Hid.
    { intros [= <- <-]. split_and!; try done. intros ? [= <-]. right. by left. }
    intros [= <- <-]. split_and!; try done; [|by eauto].
    intros ? _. split_and!; try done.
    + rewrite <- Hpid. by apply list_elem_of_fmap_2.
    + by exists v.
    + intros ->. by apply first_missing_None.
  - intros [= <- <-]. split_and!; try done.
    + intros ?? [= <- <-]. do 2 right. left. split; [done|]. by exists v.
    + intros ? [= <-]. left. eauto.
  - intros [= <- <-]. split_and!; try done.
    + intros ?? [= ->]. by destruct (allowed_list v).
    + intros ? [= <-]. do 2 right.
      assert (e0 = TypeError) as -> by (by destruct (allowed_list v); simplify_eq/=).
      split; [done|]. by exists v.
Qed.

Lemma C8_rejection_leaves_store_unchanged_witness :
  snd (create_vaccination (Ex.shot "v-hepb" D2 50) true "r-9" 9 Ex.db_d2) = Ex.db_d2.
Proof.
  apply (proj1 (C8_rejection_leaves_store_unchanged (Ex.shot "v-hepb" D2 50) true "r-9" 9
                  Ex.db_d2 _ _ (surjective_pairing _))
           (HTTPException 409 (Ordem_invalida D2 D1))).
  compute_done.
Defined.

(** C9: when earlier doses are missing, [ensure_dose_order] raises 409
    "Ordem invalida" naming the missing label with the lowest index in the
    global order, and so does the endpoint once the dose is allowed.
    Submitting D3 against an empty history names D1. *)
Theorem C9_lowest_missing_reported payload uuid4 utcnow db :
  let pid := VaccinationIn.person_id payload in
  let vid := VaccinationIn.vaccine_id payload in
  let dose := VaccinationIn.dose payload in
  ((∃ d, precedes d dose ∧ ¬ on_file db pid vid d) →
   ∃ m, ensure_dose_order pid vid dose db
        = (Raise (HTTPException 409 (Ordem_invalida dose m)), db)
      ∧ (∀ v, pid ∈ Person.id <$> people db →
              db_get_Vaccine vid db = (Return (Some v), db) →
              py_in (Dose.value dose) (allowed_list v) = Return true →
              create_vaccination payload true uuid4 utcnow db
              = (Raise (HTTPException 409 (Ordem_invalida dose m)), db))
      ∧ precedes m dose
      ∧ ¬ on_file db pid vid m
      ∧ (∀ d, precedes d dose → ¬ on_file db pid vid d → ¬ precedes d m))
  ∧ ensure_dose_order "p-ana" "v-hepb" D3 Ex.db0
    = (Raise (HTTPException 409 (Ordem_invalida D3 D1)), Ex.db0).
Proof.
  cbv zeta. split; [|compute_done]. intros (d & Hd & Hmiss).
  destruct (first_missing_is_Some _ _ _ _ d Hd Hmiss) as [m Hm].
  exists m. rewrite ensure_dose_order_run, Hm.
  pose proof (first_missing_Some _ _ _ _ _ Hm) as (Hpre & Hnot & Hmin).
  split_and!; try done.
  - intros v [p Hp]%find_key_is_Some Hv%db_get_Vaccine_Some Hin.
    by rewrite create_vaccination_run, Hp, Hv, Hin, Hm.
  - intros d' _ Hd' Hlt. by apply Hd', Hmin.
Qed.

Lemma C9_lowest_missing_reported_witness :
  ∃ m, create_vaccination (Ex.shot "v-hepb" R1 80) true "r-9" 9 Ex.db_d2
       = (Raise (HTTPException 409 (Ordem_invalida R1 m)), Ex.db_d2)
     ∧ ¬ precedes D3 m.
Proof.
  destruct (proj1 (C9_lowest_missing_reported (Ex.shot "v-hepb" R1 80) "r-9" 9 Ex.db_d2))
    as (m & _ & Hrun & _ & _ & Hmin).
  - exists D3. split; [|compute_done].
    exists 2%nat, 3%nat. by split_and!; [..|lia].
  - exists m. split.
    + apply (Hrun (Vaccine.mk "v-hepb" "Hepatite B" "hepb"
                     (Document (values_of [D1; D2; D3; R1])))); compute_done.
    + apply Hmin; [|compute_done].
      exists 2%nat, 3%nat. by split_and!; [..|lia].
Defined.

(** C10: existence checks come before every dose check.  A submission
    whose person is not in the table is answered 404 "Pessoa nao encontrada"
    whatever the vaccine and the dose are; one whose person exists and whose
    vaccine does not is answered 404 "Vacina nao encontrada".  Neither
    writes. *)
Theorem C10_existence_checks_first payload enforce_sequence uuid4 utcnow db :
  (VaccinationIn.person_id payload ∉ Person.id <$> people db →
   create_vaccination payload enforce_sequence uuid4 utcnow db
   = (Raise (HTTPException 404 Pessoa_nao_encontrada), db))
  ∧ (VaccinationIn.person_id payload ∈ Person.id <$> people db →
     VaccinationIn.vaccine_id payload ∉ Vaccine.id <$> vaccines db →
     create_vaccination payload enforce_sequence uuid4 utcnow db
     = (Raise (HTTPException 404 Vacina_nao_encontrada), db)).
Proof.
  rewrite create_vaccination_run. split.
  - intros Hp. by apply find_key_None in Hp as ->.
  - intros [p ->]%find_key_is_Some Hv. by apply find_key_None in Hv as ->.
Qed.

Lemma C10_existence_checks_first_witness :
  create_vaccination (VaccinationIn.mk "p-none" "v-none" R2 10 None None) true "r-9" 9 Ex.db2
  = (Raise (HTTPException 404 Pessoa_nao_encontrada), Ex.db2)
  ∧ create_vaccination (Ex.shot "v-none" R2 10) true "r-9" 9 Ex.db2
    = (Raise (HTTPException 404 Vacina_nao_encontrada), Ex.db2).
Proof.
  split.
  - apply (proj1 (C10_existence_checks_first _ _ _ _ _)). compute_done.
  - apply (proj2 (C10_existence_checks_first _ _ _ _ _)); compute_done.
Defined.

(** * Further properties of the endpoints *)

(** ** Lookups and writes *)

Lemma head_filter_is_Some {A} (key : A → string) k l :
  is_Some (head (filter (λ x, key x = k) l)) ↔ k ∈ key <$> l.
Proof.
  rewrite head_is_Some, list_elem_of_fmap. split.
  - destruct (filter _ l) as [|x l'] eqn:E; [done|]. intros _.
    assert (x ∈ filter (λ x, key x = k) l) as Hx by (rewrite E; left).
    apply list_elem_of_filter in Hx as [? ?]. by exists x.
  - intros (x & -> & Hx) E.
    assert (x ∈ filter (λ y, key y = key x) l) as Hin by by apply list_elem_of_filter.
    rewrite E in Hin. by apply not_elem_of_nil in Hin.
Qed.

Lemma find_snoc_new {A} (key : A → string) k l x :
  k ∉ key <$> l → key x = k →
  find (λ y, bool_decide (key y = k)) (l ++ [x]) = Some x.
Proof.
  intros Hl Hx. induction l as [|y l IH]; simpl.
  - by rewrite bool_decide_eq_true_2.
  - rewrite fmap_cons, not_elem_of_cons in Hl. destruct Hl as [Hy Hl].
    rewrite bool_decide_eq_false_2 by done. by apply IH.
Qed.

Lemma find_snoc_other {A} (key : A → string) k l x :
  key x ≠ k →
  find (λ y, bool_decide (key y = k)) (l ++ [x]) = find (λ y, bool_decide (key y = k)) l.
Proof.
  intros Hx. induction l as [|y l IH]; simpl.
  - by rewrite bool_decide_eq_false_2.
  - by rewrite IH.
Qed.

Lemma find_filter_other {A} (key : A → string) k k' l :
  k ≠ k' →
  find (λ y, bool_decide (key y = k)) (filter (λ y, key y ≠ k') l)
  = find (λ y, bool_decide (key y = k)) l.
Proof.
  intros Hne. induction l as [|y l IH]; [done|].
  rewrite filter_cons. case_decide as Hy; simpl.
  - by rewrite IH.
  - rewrite IH. rewrite bool_decide_eq_false_2; [done|]. congruence.
Qed.

(** [json.dumps] of dose values, read back member by member. *)
Lemma for_each_DoseEnum_values ds :
  for_each DoseEnum_of_json ((λ d, JString (Dose.value d)) <$> ds) = Return ds.
Proof.
  induction ds as [|d ds IH]; [done|]. rewrite fmap_cons. simpl.
  unfold DoseEnum_. rewrite of_value_value. run. by rewrite IH.
Qed.

Lemma VaccineOut_from_model_values v ds :
  Vaccine.allowed_doses v = json_dumps (values_of ds) →
  VaccineOut_from_model v
  = Return (VaccineOut.mk (Vaccine.id v) (Vaccine.name v) (Vaccine.code v) ds).
Proof.
  intros Hv. unfold VaccineOut_from_model, allowed_list. rewrite Hv. simpl.
  unfold mbind at 1. unfold outcome_bind. by rewrite for_each_DoseEnum_values.
Qed.

Lemma create_vaccine_run payload uuid4 db :
  create_vaccine payload uuid4 db =
  if decide (VaccineIn.code payload ∈ Vaccine.code <$> vaccines db)
  then (Raise (HTTPException 409 code_ja_existe), db)
  else if decide (uuid4 ∈ Vaccine.id <$> vaccines db)
  then (Raise IntegrityError, db)
  else (Return (VaccineOut.mk uuid4 (VaccineIn.name payload) (VaccineIn.code payload)
                  (or_DOSE_ORDER (VaccineIn.allowed_doses payload))),
        mkDB (people db) (vaccines db ++ [vaccine_of payload uuid4]) (vaccinations db)).
Proof.
  unfold create_vaccine, add_Vaccine.
  unfold mbind at 1 2, M_bind, query, lift. simpl.
  case_bool_decide as Hcode; rewrite head_filter_is_Some in Hcode;
    case_decide; try done.
  fold (vaccine_of payload uuid4).
  case_bool_decide as Hadd; case_decide as Hid; simpl.
  - by destruct Hadd as [? _].
  - by rewrite (VaccineOut_from_model_values _ (or_DOSE_ORDER (VaccineIn.allowed_doses payload))).
  - done.
  - by destruct Hadd.
Qed.

Lemma create_person_run payload uuid4 db :
  create_person payload uuid4 db =
  if decide (PersonIn.document payload ∈ Person.document <$> people db)
  then (Raise (HTTPException 409 document_ja_existe), db)
  else if decide (uuid4 ∈ Person.id <$> people db)
  then (Raise IntegrityError, db)
  else (Return (PersonOut.mk uuid4 (PersonIn.name payload) (PersonIn.document payload)
                  (PersonIn.sex payload) (PersonIn.age payload)),
        mkDB (people db ++ [person_of payload uuid4]) (vaccines db) (vaccinations db)).
Proof.
  unfold create_person, add_Person.
  unfold mbind at 1 2, M_bind, query, lift. simpl.
  case_bool_decide as Hdoc; rewrite head_filter_is_Some in Hdoc;
    case_decide; try done.
  fold (person_of payload uuid4).
  case_bool_decide as Hadd; case_decide as Hid; simpl.
  - by destruct Hadd as [? _].
  - unfold PersonOut_of, GenderEnum_. simpl. by rewrite gender_of_value_value.
  - done.
  - by destruct Hadd.
Qed.

Lemma create_vaccination_writes payload enforce_sequence uuid4 utcnow db :
  let pid := VaccinationIn.person_id payload in
  let vid := VaccinationIn.vaccine_id payload in
  let dose := VaccinationIn.dose payload in
  let db' := tables_after (create_vaccination payload enforce_sequence uuid4 utcnow) db in
  db' = db
  ∨ (db' = mkDB (people db) (vaccines db)
             (vaccinations db ++ [record_of payload uuid4 utcnow])
     ∧ (uuid4 ∉ Vaccination.id <$> vaccinations db)
     ∧ (pid ∈ Person.id <$> people db)
     ∧ (vid ∈ Vaccine.id <$> vaccines db)
     ∧ ¬ on_file db pid vid dose
     ∧ (enforce_sequence = true → ∀ d, precedes d dose → on_file db pid vid d)).
Proof.
  cbv zeta. unfold tables_after. rewrite create_vaccination_run.
  destruct (find _ (people db)) as [p|] eqn:Hp; [|by left].
  destruct (find _ (vaccines db)) as [v|] eqn:Hv; [|by left].
  apply find_key_Some in Hp as [Hp Hpid], Hv as [Hv Hvid].
  destruct (py_in _ _) as [[]|]; [|by left..].
  destruct (if enforce_sequence then _ else _) eqn:Hseq; [by left|].
  repeat case_decide; [by left..|]. right. split_and!; [done..| | |done|].
  - rewrite <- Hpid. by apply list_elem_of_fmap_2.
  - rewrite <- Hvid. by apply list_elem_of_fmap_2.
  - intros ->. by apply first_missing_None.
Qed.

Lemma NoDup_fmap_snoc {A B} (f : A → B) l x :
  NoDup (f <$> l) → f x ∉ f <$> l → NoDup (f <$> l ++ [x]).
Proof.
  intros Hl Hx. rewrite fmap_app, NoDup_app. split_and!; [done| |apply NoDup_singleton].
  by intros y Hy ->%list_elem_of_singleton.
Qed.

Lemma handle_keys_unique req db : keys_unique db → keys_unique (handle req db).
Proof.
  intros (Hp & Hd & Hv & Hc & Hr).
  destruct req as [payload uuid4|vid|payload uuid4|pid|payload flag uuid4 utcnow|rid];
    unfold keys_unique; simpl.
  - unfold tables_after. rewrite create_vaccine_run.
    repeat case_decide; simpl; split_and!; try done; by apply NoDup_fmap_snoc.
  - destruct (delete_vaccine_tables vid db) as [->| ->]; simpl;
      split_and!; try done; by apply NoDup_fmap_filter.
  - unfold tables_after. rewrite create_person_run.
    repeat case_decide; simpl; split_and!; try done; by apply NoDup_fmap_snoc.
  - destruct (delete_person_tables pid db) as [->| ->]; simpl;
      split_and!; try done; by apply NoDup_fmap_filter.
  - destruct (create_vaccination_writes payload flag uuid4 utcnow db)
      as [->|(-> & Hid & _)]; simpl; split_and!; try done.
    by apply NoDup_fmap_snoc.
  - destruct (delete_vaccination_tables rid db) as [->| ->]; simpl;
      split_and!; try done; by apply NoDup_fmap_filter.
Qed.

Lemma handle_person_fk_ok req db : person_fk_ok db → person_fk_ok (handle req db).
Proof.
  unfold person_fk_ok. intros Hfk.
  destruct req as [payload uuid4|vid|payload uuid4|pid|payload flag uuid4 utcnow|rid]; simpl.
  - by destruct (create_vaccine_tables payload uuid4 db) as [->|[v ->]].
  - destruct (delete_vaccine_tables vid db) as [->| ->]; [done|]. by apply Forall_filter_2.
  - destruct (create_person_tables payload uuid4 db) as [->|(p & -> & _)]; [done|].
    simpl. eapply Forall_impl; [done|]. intros r Hr. rewrite fmap_app, elem_of_app. by left.
  - destruct (delete_person_tables pid db) as [->| ->]; [done|]. simpl.
    rewrite Forall_forall in Hfk. apply Forall_forall.
    intros r [Hne Hr]%list_elem_of_filter.
    apply Hfk, list_elem_of_fmap in Hr as (p & Hid & Hp).
    apply list_elem_of_fmap. exists p. split; [done|].
    apply list_elem_of_filter. split; [congruence|done].
  - destruct (create_vaccination_writes payload flag uuid4 utcnow db)
      as [->|(-> & _ & Hp & _)]; [done|].
    apply Forall_app. split; [done|]. by constructor.
  - destruct (delete_vaccination_tables rid db) as [->| ->]; [done|].
    by apply Forall_filter_2.
Qed.

Lemma handle_allowed_doses_ok req db : allowed_doses_ok db → allowed_doses_ok (handle req db).
Proof.
  unfold allowed_doses_ok. intros Hok.
  destruct req as [payload uuid4|vid|payload uuid4|pid|payload flag uuid4 utcnow|rid]; simpl.
  - unfold tables_after. rewrite create_vaccine_run. repeat case_decide; try done.
    simpl. apply Forall_app. split; [done|]. constructor; [|done].
    unfold vaccine_of. simpl.
    destruct (VaccineIn.allowed_doses payload) as [[|d ds]|]; simpl; eauto.
  - destruct (delete_vaccine_tables vid db) as [->| ->]; [done|]. by apply Forall_filter_2.
  - by destruct (create_person_tables payload uuid4 db) as [->|(p & -> & _)].
  - by destruct (delete_person_tables pid db) as [->| ->].
  - by destruct (create_vaccination_tables payload flag uuid4 utcnow db) as [->|(-> & _)].
  - by destruct (delete_vaccination_tables rid db) as [->| ->].
Qed.

Lemma reachable_keys_unique db : reachable db → keys_unique db.
Proof.
  induction 1; [by repeat split; apply NoDup_nil_2|]. by apply handle_keys_unique.
Qed.

Lemma reachable_person_fk_ok db : reachable db → person_fk_ok db.
Proof. induction 1; [by constructor|]. by apply handle_person_fk_ok. Qed.

Lemma reachable_allowed_doses_ok db : reachable db → allowed_doses_ok db.
Proof. induction 1; [by constructor|]. by apply handle_allowed_doses_ok. Qed.

Lemma reachable_unique_doses db : reachable db → unique_doses db.
Proof. induction 1; [apply NoDup_nil_2|]. by apply handle_unique_doses. Qed.

Lemma py_in_values_of x ds :
  py_in x (values_of ds) = Return (bool_decide (x ∈ Dose.value <$> ds)).
Proof.
  unfold values_of, py_in. f_equal. apply eq_true_iff_eq.
  rewrite existsb_eq_str, bool_decide_eq_true, !list_elem_of_fmap. split.
  - intros (d & [= ->] & Hd). by exists d.
  - intros (d & -> & Hd). by exists d.
Qed.

Lemma allowed_list_values v ds :
  Vaccine.allowed_doses v = json_dumps (values_of ds) → allowed_list v = values_of ds.
Proof. intros Hv. unfold allowed_list. by rewrite Hv. Qed.

(** ** Invariants of the tables *)

(** X1: identifiers, vaccine codes and person documents stay unique.  Every
    request keeps the primary keys of the three tables, the [code] of the
    vaccines and the [document] of the people free of repeats, so they are
    in every state the API reaches. *)
Theorem X1_keys_stay_unique :
  (∀ req db, keys_unique db → keys_unique (handle req db))
  ∧ (∀ db, reachable db → keys_unique db).
Proof. split; [apply handle_keys_unique|apply reachable_keys_unique]. Qed.

Lemma X1_keys_stay_unique_witness : keys_unique Ex.db2.
Proof. apply (proj2 X1_keys_stay_unique), reachable_db2. Defined.

(** X2: dose records never dangle.  In every state the API reaches each
    dose record refers to a person and to a vaccine that are in their
    tables: records are written only for rows that exist, and deleting a
    person or a vaccine deletes its records. *)
Theorem X2_records_never_dangle db :
  reachable db →
  ∀ r, r ∈ vaccinations db →
    (∃ p, db_get_Person (Vaccination.person_id r) db = (Return (Some p), db))
    ∧ (∃ v, db_get_Vaccine (Vaccination.vaccine_id r) db = (Return (Some v), db)).
Proof.
  intros Hdb r Hr.
  pose proof (reachable_person_fk_ok _ Hdb) as Hp.
  pose proof (reachable_vaccine_fk_ok _ Hdb) as Hv.
  unfold person_fk_ok, vaccine_fk_ok in *. rewrite Forall_forall in Hp, Hv.
  destruct (find_key_is_Some Person.id _ _ (Hp r Hr)) as [p Hfp].
  destruct (find_key_is_Some Vaccine.id _ _ (Hv r Hr)) as [v Hfv].
  split; [exists p|exists v]; unfold db_get_Person, db_get_Vaccine; run; congruence.
Qed.

Lemma X2_records_never_dangle_witness :
  ∃ p, db_get_Person "p-ana" Ex.db2 = (Return (Some p), Ex.db2).
Proof.
  apply (X2_records_never_dangle Ex.db2 reachable_db2
           (Vaccination.mk "r-1" "p-ana" "v-hepb" "D1" 10 None None 1)).
  vm_compute. left.
Defined.

(** X3: through the API no vaccine ends up with an empty or unreadable
    allowed set.  In every state the API reaches, each vaccine stores the
    document of a non-empty list of dose values, [allowed_list] returns that
    list without falling back, and at least one dose passes
    [ensure_dose_allowed]. *)
Theorem X3_allowed_doses_never_empty db v :
  reachable db → v ∈ vaccines db →
  ∃ d ds,
    Vaccine.allowed_doses v = json_dumps (values_of (d :: ds))
    ∧ allowed_list v = values_of (d :: ds)
    ∧ ensure_dose_allowed v d = Return ()
    ∧ ∀ dose, ensure_dose_allowed v dose = Return () ↔ dose ∈ d :: ds.
Proof.
  intros Hdb Hv. pose proof (reachable_allowed_doses_ok _ Hdb) as Hok.
  unfold allowed_doses_ok in Hok. rewrite Forall_forall in Hok.
  destruct (Hok v Hv) as (d & ds & Htext). exists d, ds.
  pose proof (allowed_list_values _ _ Htext) as Hlist.
  assert (∀ dose, ensure_dose_allowed v dose = Return () ↔ dose ∈ d :: ds) as Hiff.
  { intros dose. rewrite ensure_dose_allowed_run, Hlist, py_in_values_of.
    case_bool_decide as Hin; rewrite list_elem_of_fmap_inj in Hin by apply _;
      by split. }
  split_and!; [done..| |done]. apply Hiff. left.
Qed.

Lemma X3_allowed_doses_never_empty_witness :
  ∃ d ds, allowed_list (vaccine_of Ex.bcg "v-bcg") = values_of (d :: ds).
Proof.
  destruct (X3_allowed_doses_never_empty Ex.db2 (vaccine_of Ex.bcg "v-bcg") reachable_db2)
    as (d & ds & _ & Hlist & _).
  - vm_compute. right. left.
  - by exists d, ds.
Defined.

(** ** Recording a dose *)

(** X4: when a dose is recorded.  [create_vaccination] returns its response
    exactly when the person exists, the vaccine exists and allows the dose,
    every earlier dose is on file (if the sequence is enforced), the dose is
    not on file yet and the drawn identifier is free; the response then
    repeats the payload with the drawn identifier and time, and the new row
    is the only change. *)
Theorem X4_create_vaccination_accepts_iff payload enforce_sequence uuid4 utcnow db out db' :
  let pid := VaccinationIn.person_id payload in
  let vid := VaccinationIn.vaccine_id payload in
  let dose := VaccinationIn.dose payload in
  create_vaccination payload enforce_sequence uuid4 utcnow db = (Return out, db')
  ↔ (pid ∈ Person.id <$> people db)
    ∧ (∃ v, db_get_Vaccine vid db = (Return (Some v), db)
            ∧ py_in (Dose.value dose) (allowed_list v) = Return true)
    ∧ (enforce_sequence = true → ∀ d, precedes d dose → on_file db pid vid d)
    ∧ ¬ on_file db pid vid dose
    ∧ (uuid4 ∉ Vaccination.id <$> vaccinations db)
    ∧ out = VaccinationOut.mk uuid4 pid vid dose (VaccinationIn.applied_at payload)
              (VaccinationIn.lot payload) (VaccinationIn.location payload) utcnow
    ∧ db' = mkDB (people db) (vaccines db)
              (vaccinations db ++ [record_of payload uuid4 utcnow]).
Proof.
  cbv zeta. rewrite create_vaccination_run. split.
  - destruct (find _ (people db)) as [p|] eqn:Hp; [|done].
    destruct (find _ (vaccines db)) as [v|] eqn:Hv; [|done].
    apply find_key_Some in Hp as [Hp Hpid].
    destruct (py_in _ _) as [[]|] eqn:Hin; [|done..].
    destruct (if enforce_sequence then _ else _) eqn:Hseq; [done|].
    repeat case_decide; try done. intros [= <- <-].
    split_and!; try done.
    + rewrite <- Hpid. by apply list_elem_of_fmap_2.
    + exists v. split; [|done]. unfold db_get_Vaccine. run. by rewrite Hv.
    + intros ->. by apply first_missing_None.
  - intros ([p Hp]%find_key_is_Some & (v & Hv%db_get_Vaccine_Some & Hin)
            & Hseq & Hdup & Hid & -> & ->).
    rewrite Hp, Hv, Hin.
    match goal with
    | |- context [if enforce_sequence then ?m else None] =>
        assert ((if enforce_sequence then m else None) = None) as ->
    end.
    { destruct enforce_sequence; [|done]. by apply first_missing_None, Hseq. }
    by repeat case_decide.
Qed.

(** X5: recording a dose never fails with anything but a typed rejection.
    In every state the API reaches, with a free identifier,
    [create_vaccination] returns its response or raises an [HTTPException]
    with status 404, 409 or 422 and leaves the tables as they were. *)
Theorem X5_create_vaccination_never_crashes payload enforce_sequence uuid4 utcnow db :
  reachable db →
  uuid4 ∉ Vaccination.id <$> vaccinations db →
  (∃ out db', create_vaccination payload enforce_sequence uuid4 utcnow db = (Return out, db'))
  ∨ (∃ code d, create_vaccination payload enforce_sequence uuid4 utcnow db
               = (Raise (HTTPException code d), db)
               ∧ code ∈ [404; 409; 422]%nat).
Proof.
  intros Hdb Hid. rewrite create_vaccination_run.
  destruct (find _ (people db)); [|right; do 2 eexists; split; [done|set_solver]].
  destruct (find _ (vaccines db)) as [v|] eqn:Hv;
    [|right; do 2 eexists; split; [done|set_solver]].
  apply find_key_Some in Hv as [Hv _].
  pose proof (reachable_allowed_doses_ok _ Hdb) as Hok.
  unfold allowed_doses_ok in Hok. rewrite Forall_forall in Hok.
  destruct (Hok v Hv) as (d & ds & Htext).
  rewrite (allowed_list_values _ _ Htext), py_in_values_of.
  destruct (bool_decide _); [|right; do 2 eexists; split; [done|set_solver]].
  destruct (if enforce_sequence then _ else _);
    [right; do 2 eexists; split; [done|set_solver]|].
  case_decide; [right; do 2 eexists; split; [done|set_solver]|].
  rewrite decide_False by done. left. eauto.
Qed.

Lemma X5_create_vaccination_never_crashes_witness :
  ∃ code d, create_vaccination (Ex.shot "v-bcg" D3 80) true "r-9" 9 Ex.db2
            = (Raise (HTTPException code d), Ex.db2).
Proof.
  destruct (X5_create_vaccination_never_crashes (Ex.shot "v-bcg" D3 80) true "r-9" 9
              Ex.db2 reachable_db2) as [(out & db' & Hrun)|(code & d & Hrun & _)].
  - compute_done.
  - vm_compute in Hrun. discriminate Hrun.
  - by exists code, d.
Defined.

(** X6: a recorded dose can be read back.  After [create_vaccination]
    returns, [get_vaccination] with the identifier of the response returns
    the same response, and every other identifier is answered as before. *)
Theorem X6_create_then_get_vaccination payload enforce_sequence uuid4 utcnow db out db' :
  create_vaccination payload enforce_sequence uuid4 utcnow db = (Return out, db') →
  get_vaccination (VaccinationOut.id out) db' = (Return out, db')
  ∧ ∀ rid, rid ≠ VaccinationOut.id out →
           get_vaccination rid db' = (fst (get_vaccination rid db), db').
Proof.
  rewrite create_vaccination_run.
  destruct (find _ (people db)); [|done].
  destruct (find _ (vaccines db)); [|done].
  destruct (py_in _ _) as [[]|]; [|done..].
  destruct (if enforce_sequence then _ else _); [done|].
  repeat case_decide; try done. intros [= <- <-].
  unfold get_vaccination, db_get_Vaccination. run. split.
  - rewrite (find_snoc_new Vaccination.id) by done.
    unfold VaccinationOut_of, DoseEnum_. simpl. by rewrite of_value_value.
  - intros rid Hrid. rewrite (find_snoc_other Vaccination.id) by done.
    by destruct (find _ _).
Qed.

Lemma X6_create_then_get_vaccination_witness :
  fst (get_vaccination "r-9"
         (snd (create_vaccination (Ex.shot "v-hepb" D3 80) true "r-9" 9 Ex.db2)))
  = Return (VaccinationOut.mk "r-9" "p-ana" "v-hepb" D3 80 None None 9).
Proof.
  assert (create_vaccination (Ex.shot "v-hepb" D3 80) true "r-9" 9 Ex.db2
          = (Return (VaccinationOut.mk "r-9" "p-ana" "v-hepb" D3 80 None None 9),
             snd (create_vaccination (Ex.shot "v-hepb" D3 80) true "r-9" 9 Ex.db2)))
    as Hrun by compute_done.
  destruct (X6_create_then_get_vaccination _ _ _ _ _ _ _ Hrun) as [Hget _].
  exact (f_equal fst Hget).
Defined.

Lemma X4_create_vaccination_accepts_iff_witness :
  create_vaccination (Ex.shot "v-hepb" D3 80) true "r-9" 9 Ex.db2
  = (Return (VaccinationOut.mk "r-9" "p-ana" "v-hepb" D3 80 None None 9),
     mkDB (people Ex.db2) (vaccines Ex.db2)
       (vaccinations Ex.db2 ++ [record_of (Ex.shot "v-hepb" D3 80) "r-9" 9])).
Proof.
  apply (proj2 (X4_create_vaccination_accepts_iff _ _ _ _ _ _ _)).
  split_and!; try compute_done.
  - exists (vaccine_of Ex.hepb "v-hepb"). split; compute_done.
  - intros _ d (i & k & Hi & Hk & Hlt). vm_compute in Hk. injection Hk as <-.
    destruct d; vm_compute in Hi; injection Hi as <-; try lia; compute_done.
Defined.

(** ** The catalog and the people *)

Lemma for_each_snoc {A B} (f : A → outcome B) l x ys y :
  for_each f l = Return ys → f x = Return y →
  for_each f (l ++ [x]) = Return (ys ++ [y]).
Proof.
  intros Hl Hx. revert ys Hl. induction l as [|z l IH]; intros ys; simpl.
  - intros [= <-]. by rewrite Hx.
  - destruct (f z); [|done]. run.
    destruct (for_each f l) as [ys'|]; [|done].
    intros [= <-]. by rewrite (IH ys').
Qed.

(** X7: a created vaccine can be read back, with its allowed doses
    defaulted.  After [create_vaccine] returns, the response repeats the
    payload, except that absent or empty allowed doses come back as all of
    [DOSE_ORDER], so its allowed doses are never empty; [get_vaccine] with
    its identifier returns the same response, and [list_vaccines] on the
    new tables ends with it when it returns. *)
Theorem X7_create_then_get_vaccine payload uuid4 db out db' :
  create_vaccine payload uuid4 db = (Return out, db') →
  out = VaccineOut.mk uuid4 (VaccineIn.name payload) (VaccineIn.code payload)
          (match VaccineIn.allowed_doses payload with
           | Some (d :: ds) => d :: ds
           | _ => [D1; D2; D3; R1; R2]
           end)
  ∧ VaccineOut.allowed_doses out ≠ []
  ∧ get_vaccine (VaccineOut.id out) db' = (Return out, db')
  ∧ (∀ vid, vid ≠ VaccineOut.id out →
            get_vaccine vid db' = (fst (get_vaccine vid db), db'))
  ∧ (∀ outs, fst (list_vaccines db) = Return outs →
             list_vaccines db' = (Return (outs ++ [out]), db')).
Proof.
  rewrite create_vaccine_run. repeat case_decide; try done. intros [= <- <-].
  assert (VaccineOut_from_model (vaccine_of payload uuid4)
          = Return (VaccineOut.mk uuid4 (VaccineIn.name payload) (VaccineIn.code payload)
                      (or_DOSE_ORDER (VaccineIn.allowed_doses payload)))) as Hout
    by by apply VaccineOut_from_model_values.
  split_and!.
  - by destruct (VaccineIn.allowed_doses payload) as [[|??]|].
  - by destruct (VaccineIn.allowed_doses payload) as [[|??]|].
  - unfold get_vaccine, db_get_Vaccine. run.
    rewrite (find_snoc_new Vaccine.id) by done. by rewrite Hout.
  - intros vid Hvid. unfold get_vaccine, db_get_Vaccine. run.
    rewrite (find_snoc_other Vaccine.id) by done. by destruct (find _ _).
  - intros outs. unfold list_vaccines. run. intros Houts.
    by rewrite (for_each_snoc _ _ _ _ _ Houts Hout).
Qed.

Lemma X7_create_then_get_vaccine_witness :
  fst (get_vaccine "v-new"
         (snd (create_vaccine (VaccineIn.mk "Rotavirus" "rotavirus" (Some [])) "v-new" Ex.db2)))
  = Return (VaccineOut.mk "v-new" "Rotavirus" "rotavirus" [D1; D2; D3; R1; R2]).
Proof.
  assert (create_vaccine (VaccineIn.mk "Rotavirus" "rotavirus" (Some [])) "v-new" Ex.db2
          = (Return (VaccineOut.mk "v-new" "Rotavirus" "rotavirus" [D1; D2; D3; R1; R2]),
             snd (create_vaccine (VaccineIn.mk "Rotavirus" "rotavirus" (Some [])) "v-new"
                    Ex.db2)))
    as Hrun by compute_done.
  destruct (X7_create_then_get_vaccine _ _ _ _ _ Hrun) as (_ & _ & Hget & _).
  exact (f_equal fst Hget).
Defined.

(** X8: a created person can be read back.  After [create_person] returns,
    the response repeats the payload under the drawn identifier,
    [get_person] with that identifier returns the same response, and every
    other identifier is answered as before. *)
Theorem X8_create_then_get_person payload uuid4 db out db' :
  create_person payload uuid4 db = (Return out, db') →
  out = PersonOut.mk uuid4 (PersonIn.name payload) (PersonIn.document payload)
          (PersonIn.sex payload) (PersonIn.age payload)
  ∧ get_person (PersonOut.id out) db' = (Return out, db')
  ∧ (∀ pid, pid ≠ PersonOut.id out →
            get_person pid db' = (fst (get_person pid db), db')).
Proof.
  rewrite create_person_run. repeat case_decide; try done. intros [= <- <-].
  assert (PersonOut_of (person_of payload uuid4)
          = Return (PersonOut.mk uuid4 (PersonIn.name payload) (PersonIn.document payload)
                      (PersonIn.sex payload) (PersonIn.age payload))) as Hout.
  { unfold PersonOut_of, GenderEnum_. simpl. by rewrite gender_of_value_value. }
  split_and!.
  - done.
  - unfold get_person, db_get_Person. run.
    rewrite (find_snoc_new Person.id) by done. by rewrite Hout.
  - intros pid Hpid. unfold get_person, db_get_Person. run.
    rewrite (find_snoc_other Person.id) by done. by destruct (find _ _).
Qed.

Lemma X8_create_then_get_person_witness :
  fst (get_person "p-rui"
         (snd (create_person (PersonIn.mk "Rui" "456" M_ 41) "p-rui" Ex.db2)))
  = Return (PersonOut.mk "p-rui" "Rui" "456" M_ 41).
Proof.
  assert (create_person (PersonIn.mk "Rui" "456" M_ 41) "p-rui" Ex.db2
          = (Return (PersonOut.mk "p-rui" "Rui" "456" M_ 41),
             snd (create_person (PersonIn.mk "Rui" "456" M_ 41) "p-rui" Ex.db2)))
    as Hrun by compute_done.
  destruct (X8_create_then_get_person _ _ _ _ _ Hrun) as (_ & Hget & _).
  exact (f_equal fst Hget).
Defined.

(** X9: the unique columns are checked before anything is written.
    [create_vaccine] answers 409 "code ja existe" exactly when the code is
    taken and returns exactly when the code is new and the drawn identifier
    is free; [create_person] does the same with the document.  A refused
    creation leaves the tables as they were. *)
Theorem X9_create_conflicts :
  (∀ payload uuid4 db,
     (create_vaccine payload uuid4 db = (Raise (HTTPException 409 code_ja_existe), db)
      ↔ VaccineIn.code payload ∈ Vaccine.code <$> vaccines db)
     ∧ ((∃ out db', create_vaccine payload uuid4 db = (Return out, db'))
        ↔ (VaccineIn.code payload ∉ Vaccine.code <$> vaccines db)
          ∧ (uuid4 ∉ Vaccine.id <$> vaccines db))
     ∧ (∀ e db', create_vaccine payload uuid4 db = (Raise e, db') → db' = db))
  ∧ (∀ payload uuid4 db,
       (create_person payload uuid4 db = (Raise (HTTPException 409 document_ja_existe), db)
        ↔ PersonIn.document payload ∈ Person.document <$> people db)
       ∧ ((∃ out db', create_person payload uuid4 db = (Return out, db'))
          ↔ (PersonIn.document payload ∉ Person.document <$> people db)
            ∧ (uuid4 ∉ Person.id <$> people db))
       ∧ (∀ e db', create_person payload uuid4 db = (Raise e, db') → db' = db)).
Proof.
  split; intros payload uuid4 db.
  - rewrite create_vaccine_run. repeat case_decide; split_and!;
      try (split; [by intros [= ]|done]); try (split; [done|by intros _]);
      try (intros ?? [= ]; done);
      try (split; [by intros (? & ? & [= ])|by intros [? ?]]).
    by split; [|eauto].
  - rewrite create_person_run. repeat case_decide; split_and!;
      try (split; [by intros [= ]|done]); try (split; [done|by intros _]);
      try (intros ?? [= ]; done);
      try (split; [by intros (? & ? & [= ])|by intros [? ?]]).
    by split; [|eauto].
Qed.

(** ** Deleting *)

Lemma find_filter_gone {A} (key : A → string) k l :
  find (λ y, bool_decide (key y = k)) (filter (λ y, key y ≠ k) l) = None.
Proof.
  apply find_key_None. rewrite list_elem_of_fmap.
  intros (y & Hk & [Hy _]%list_elem_of_filter). congruence.
Qed.

(** X10: deleting one dose record.  An unknown identifier is answered 404
    and nothing changes.  A known one removes the records with that
    identifier and nothing else: reading it back is a 404, deleting it again
    is a 404, and every other identifier is answered as before. *)
Theorem X10_delete_vaccination rid db :
  (rid ∉ Vaccination.id <$> vaccinations db →
   delete_vaccination rid db = (Raise (HTTPException 404 Registro_nao_encontrado), db))
  ∧ (rid ∈ Vaccination.id <$> vaccinations db →
     ∃ db', delete_vaccination rid db = (Return (), db')
       ∧ people db' = people db
       ∧ vaccines db' = vaccines db
       ∧ vaccinations db' = filter (λ r, Vaccination.id r ≠ rid) (vaccinations db)
       ∧ get_vaccination rid db'
         = (Raise (HTTPException 404 Registro_nao_encontrado), db')
       ∧ delete_vaccination rid db'
         = (Raise (HTTPException 404 Registro_nao_encontrado), db')
       ∧ ∀ rid', rid' ≠ rid →
           get_vaccination rid' db' = (fst (get_vaccination rid' db), db')).
Proof.
  unfold delete_vaccination, get_vaccination, db_get_Vaccination, delete_Vaccination.
  run. split.
  - intros Hrid. by apply find_key_None in Hrid as ->.
  - intros [r Hr]%find_key_is_Some. rewrite Hr.
    apply find_key_Some in Hr as [_ <-].
    eexists. split; [reflexivity|]. simpl.
    rewrite find_filter_gone. split_and!; try done.
    intros rid' Hne. rewrite find_filter_other by done. by destruct (find _ _).
Qed.

Lemma X10_delete_vaccination_witness :
  ∃ db', delete_vaccination "r-2" Ex.db2 = (Return (), db')
         ∧ get_vaccination "r-2" db'
           = (Raise (HTTPException 404 Registro_nao_encontrado), db').
Proof.
  destruct (proj2 (X10_delete_vaccination "r-2" Ex.db2)) as (db' & Hdel & _ & _ & _ & Hget & _).
  - compute_done.
  - by exists db'.
Defined.

Lemma X9_create_conflicts_witness :
  create_vaccine (VaccineIn.mk "Hepatite B (adulto)" "hepb" None) "v-new" Ex.db2
  = (Raise (HTTPException 409 code_ja_existe), Ex.db2).
Proof.
  apply (proj1 (proj1 X9_create_conflicts
                  (VaccineIn.mk "Hepatite B (adulto)" "hepb" None) "v-new" Ex.db2)).
  compute_done.
Defined.

Lemma records_of_filter_other db pid pid' :
  pid' ≠ pid →
  filter (λ r, Vaccination.person_id r = pid')
    (filter (λ r, Vaccination.person_id r ≠ pid) (vaccinations db))
  = records_of db pid'.
Proof.
  intros Hne. unfold records_of. rewrite list_filter_filter.
  apply list_filter_iff. intros r. split; [by intros [? _]|]. intros <-. by split.
Qed.

(** X11: deleting a person deletes the person's dose records and nothing
    else.  An unknown identifier is answered 404 and nothing changes.  For a
    known one the catalog is untouched, no record of that person is left,
    the person's card is a 404 in both formats, and every other person keeps
    the same records and the same card. *)
Theorem X11_delete_person_cascades pid db :
  (pid ∉ Person.id <$> people db →
   delete_person pid db = (Raise (HTTPException 404 Pessoa_nao_encontrada), db))
  ∧ (pid ∈ Person.id <$> people db →
     ∃ db', delete_person pid db = (Return (), db')
       ∧ vaccines db' = vaccines db
       ∧ people db' = filter (λ p, Person.id p ≠ pid) (people db)
       ∧ records_of db' pid = []
       ∧ (∀ format, get_card pid format db'
                    = (Raise (HTTPException 404 Pessoa_nao_encontrada), db'))
       ∧ (∀ pid', pid' ≠ pid → records_of db' pid' = records_of db pid')
       ∧ (∀ pid' format, pid' ≠ pid →
            get_card pid' format db' = (fst (get_card pid' format db), db'))).
Proof.
  unfold delete_person, db_get_Person, delete_Person. run. split.
  - intros Hpid. by apply find_key_None in Hpid as ->.
  - intros [p Hp]%find_key_is_Some. rewrite Hp.
    apply find_key_Some in Hp as [_ <-].
    eexists. split; [reflexivity|]. split_and!; try done.
    + unfold records_of. simpl. apply filter_none.
      intros r [Hr _]%list_elem_of_filter. by intros ?.
    + intros format. rewrite get_card_run. simpl. by rewrite find_filter_gone.
    + intros pid' Hne. by apply records_of_filter_other.
    + intros pid' format Hne. rewrite !get_card_run. simpl.
      rewrite find_filter_other by done.
      change (records_of {| people := _; vaccines := _; vaccinations := ?l |} pid')
        with (filter (λ r, Vaccination.person_id r = pid') l).
      by rewrite records_of_filter_other.
Qed.

Lemma X11_delete_person_cascades_witness :
  ∃ db', delete_person "p-ana" Ex.db2 = (Return (), db') ∧ records_of db' "p-ana" = [].
Proof.
  destruct (proj2 (X11_delete_person_cascades "p-ana" Ex.db2))
    as (db' & Hdel & _ & _ & Hrecs & _).
  - compute_done.
  - by exists db'.
Defined.

(** X12: deleting a vaccine deletes its dose records and nothing else.  An
    unknown identifier is answered 404 and nothing changes.  For a known one
    the people are untouched, the vaccine cannot be read back, nobody has a
    dose of it on file, and the doses of every other vaccine stay on
    file. *)
Theorem X12_delete_vaccine_cascades vid db :
  (vid ∉ Vaccine.id <$> vaccines db →
   delete_vaccine vid db = (Raise (HTTPException 404 Vacina_nao_encontrada), db))
  ∧ (vid ∈ Vaccine.id <$> vaccines db →
     ∃ db', delete_vaccine vid db = (Return (), db')
       ∧ people db' = people db
       ∧ vaccines db' = filter (λ v, Vaccine.id v ≠ vid) (vaccines db)
       ∧ get_vaccine vid db' = (Raise (HTTPException 404 Vacina_nao_encontrada), db')
       ∧ (∀ pid d, ¬ on_file db' pid vid d)
       ∧ (∀ pid vid' d, vid' ≠ vid → on_file db' pid vid' d ↔ on_file db pid vid' d)
       ∧ (∀ vid', vid' ≠ vid →
            get_vaccine vid' db' = (fst (get_vaccine vid' db), db'))).
Proof.
  unfold delete_vaccine, get_vaccine, db_get_Vaccine, delete_Vaccine. run. split.
  - intros Hvid. by apply find_key_None in Hvid as ->.
  - intros [v Hv]%find_key_is_Some. rewrite Hv.
    apply find_key_Some in Hv as [_ <-].
    eexists. split; [reflexivity|]. simpl.
    rewrite find_filter_gone. split_and!; try done.
    + intros pid d (r & [Hne _]%list_elem_of_filter & _ & Hvid & _). done.
    + intros pid vid' d Hne. unfold on_file. simpl. split.
      * intros (r & [_ Hr]%list_elem_of_filter & ?). by exists r.
      * intros (r & Hr & Hp & Hvid & Hd). exists r. split; [|done].
        apply list_elem_of_filter. split; [congruence|done].
    + intros vid' Hne. rewrite find_filter_other by done. by destruct (find _ _).
Qed.

Lemma X12_delete_vaccine_cascades_witness :
  ∃ db', delete_vaccine "v-bcg" Ex.db2 = (Return (), db')
         ∧ ¬ on_file db' "p-ana" "v-bcg" D1
         ∧ on_file db' "p-ana" "v-hepb" D1.
Proof.
  destruct (proj2 (X12_delete_vaccine_cascades "v-bcg" Ex.db2))
    as (db' & Hdel & _ & _ & _ & Hgone & Hkept & _).
  - compute_done.
  - exists db'. split_and!; [done|apply Hgone|].
    apply Hkept; [done|compute_done].
Defined.

(** ** The order of doses *)

Lemma precedes_trans d1 d2 d3 : precedes d1 d2 → precedes d2 d3 → precedes d1 d3.
Proof. rewrite !precedes_to_nat. lia. Qed.

Lemma precedes_total d1 d2 : precedes d1 d2 ∨ d1 = d2 ∨ precedes d2 d1.
Proof.
  rewrite !precedes_to_nat.
  destruct (lt_eq_lt_dec (Dose.to_nat d1) (Dose.to_nat d2)) as [[?|Heq]|?]; [by left| |by right; right].
  right. left. by destruct d1, d2.
Qed.

Lemma on_file_snoc people0 vaccines0 l rec pid vid d :
  on_file (mkDB people0 vaccines0 (l ++ [rec])) pid vid d
  ↔ on_file (mkDB people0 vaccines0 l) pid vid d
    ∨ (Vaccination.person_id rec = pid ∧ Vaccination.vaccine_id rec = vid
       ∧ Vaccination.dose rec = Dose.value d).
Proof.
  unfold on_file. simpl. split.
  - intros (r & [Hr| ->%list_elem_of_singleton]%elem_of_app & Hrest);
      [left; by exists r|by right].
  - intros [(r & Hr & Hrest)|Hrest].
    + exists r. split; [|done]. apply elem_of_app. by left.
    + exists rec. split; [|done]. apply elem_of_app. right. by apply list_elem_of_singleton.
Qed.

Lemma handle_histories_closed req db :
  sequenced req → histories_closed db → histories_closed (handle req db).
Proof.
  intros Hreq Hdb.
  destruct req as [payload uuid4|vid|payload uuid4|pid|payload flag uuid4 utcnow|rid]; simpl.
  - by destruct (create_vaccine_tables payload uuid4 db) as [->|[v ->]].
  - destruct (delete_vaccine_tables vid db) as [->| ->]; [done|].
    intros p v d d' (r & [Hne Hr]%list_elem_of_filter & Hp & Hv & Hd) Hpre.
    destruct (Hdb p v d d') as (r' & Hr' & Hp' & Hv' & Hd'); [by exists r|done|].
    exists r'. split; [|done]. apply list_elem_of_filter. split; [congruence|done].
  - by destruct (create_person_tables payload uuid4 db) as [->|(p & -> & _)].
  - destruct (delete_person_tables pid db) as [->| ->]; [done|].
    intros p v d d' (r & [Hne Hr]%list_elem_of_filter & Hp & Hv & Hd) Hpre.
    destruct (Hdb p v d d') as (r' & Hr' & Hp' & Hv' & Hd'); [by exists r|done|].
    exists r'. split; [|done]. apply list_elem_of_filter. split; [congruence|done].
  - simpl in Hreq. subst flag.
    destruct (create_vaccination_writes payload true uuid4 utcnow db)
      as [->|(-> & _ & _ & _ & _ & Hseq)]; [done|].
    intros p v d d'. rewrite !on_file_snoc. simpl.
    intros [Hold|(<- & <- & Hd%(inj Dose.value))] Hpre; left.
    + by apply (Hdb p v d d').
    + subst d. by apply Hseq.
  - done.
Qed.

(** X13: enforced sequences leave no gaps.  If every dose is recorded with
    the sequence check on and no single record is deleted, then whoever has
    a dose of a vaccine on file has every earlier dose of it on file, from
    any tables where this holds, the empty ones among them. *)
Theorem X13_enforced_histories_closed reqs db :
  Forall sequenced reqs → histories_closed db → histories_closed (serve reqs db).
Proof.
  unfold serve. revert db. induction reqs as [|req reqs IH]; intros db Hreqs Hdb; [done|].
  apply Forall_cons in Hreqs as [Hreq Hreqs]. simpl.
  by apply IH, handle_histories_closed.
Qed.

Lemma X13_enforced_histories_closed_witness :
  histories_closed
    (serve [POST_vaccines Ex.hepb "v-hepb"; POST_people Ex.ana "p-ana";
            POST_vaccinations (Ex.shot "v-hepb" D1 10) true "r-1" 1;
            POST_vaccinations (Ex.shot "v-hepb" D3 20) true "r-2" 2;
            POST_vaccinations (Ex.shot "v-hepb" D2 41) true "r-3" 3;
            DELETE_vaccines "v-none"] empty_db).
Proof.
  apply X13_enforced_histories_closed.
  - by repeat constructor.
  - by intros pid vid d d' (r & ?%not_elem_of_nil & _).
Defined.

(** X14: with the sequence check on, the dose that is accepted is the first
    one missing.  When [create_vaccination] returns under
    [enforce_sequence], the dose was not on file, every earlier dose was,
    and so every dose not on file is the accepted one or a later one. *)
Theorem X14_accepted_dose_is_first_missing payload uuid4 utcnow db out db' :
  let pid := VaccinationIn.person_id payload in
  let vid := VaccinationIn.vaccine_id payload in
  let dose := VaccinationIn.dose payload in
  create_vaccination payload true uuid4 utcnow db = (Return out, db') →
  ¬ on_file db pid vid dose
  ∧ (∀ d, precedes d dose → on_file db pid vid d)
  ∧ (∀ d, ¬ on_file db pid vid d → d = dose ∨ precedes dose d)
  ∧ (∀ d, on_file db' pid vid d ↔ d = dose ∨ on_file db pid vid d).
Proof.
  cbv zeta. intros Hrun.
  assert (tables_after (create_vaccination payload true uuid4 utcnow) db = db') as Hdb'
    by (unfold tables_after; by rewrite Hrun).
  rewrite create_vaccination_run in Hrun.
  destruct (find _ (people db)); [|done].
  destruct (find _ (vaccines db)); [|done].
  destruct (py_in _ _) as [[]|]; [|done..].
  destruct (first_missing _ _ _ _) eqn:Hmiss; [done|].
  rewrite first_missing_None in Hmiss.
  repeat case_decide; try done. injection Hrun as <- <-.
  split_and!; try done.
  - intros d Hd. destruct (precedes_total d (VaccinationIn.dose payload)) as [Hpre|[->|Hpre]];
      [|by left|by right].
    by destruct Hd; apply Hmiss.
  - intros d. rewrite on_file_snoc. simpl. split.
    + intros [?|(_ & _ & ->%(inj Dose.value))]; [by right|by left].
    + intros [->|?]; [by right|by left].
Qed.

Lemma X14_accepted_dose_is_first_missing_witness :
  on_file Ex.db2 "p-ana" "v-hepb" D1 ∧ on_file Ex.db2 "p-ana" "v-hepb" D2.
Proof.
  assert (create_vaccination (Ex.shot "v-hepb" D3 80) true "r-9" 9 Ex.db2
          = (Return (VaccinationOut.mk "r-9" "p-ana" "v-hepb" D3 80 None None 9),
             snd (create_vaccination (Ex.shot "v-hepb" D3 80) true "r-9" 9 Ex.db2)))
    as Hrun by compute_done.
  destruct (X14_accepted_dose_is_first_missing _ _ _ _ _ _ Hrun) as (_ & Hearlier & _ & _).
  split; apply Hearlier.
  - exists 0%nat, 2%nat. split; [reflexivity|]. split; [reflexivity|]. lia.
  - exists 1%nat, 2%nat. split; [reflexivity|]. split; [reflexivity|]. lia.
Defined.

(** ** The card views *)

Lemma get_card_matrix_run pid format db p :
  find (λ p, bool_decide (Person.id p = pid)) (people db) = Some p →
  format ≠ "list"%string →
  let by_key := foldl (λ m rec, <[(Vaccination.dose rec, Vaccination.vaccine_id rec) := rec]> m)
                  (∅ : gmap (string * string) Vaccination.t) (records_of db pid) in
  let cols := MatrixCol_of <$> order_by_name (vaccines db) in
  get_card pid format db
  = (Return (CardMatrix (CardMatrixOut.mk DOSE_ORDER cols
                           ((λ d, cell_at by_key d <$> cols) <$> DOSE_ORDER))), db).
Proof.
  intros Hp Hfmt by_key cols.
  rewrite get_card_run, Hp, bool_decide_eq_false_2 by done.
  fold by_key cols.
  erewrite (for_each_Return _ (λ d, cell_at by_key d <$> cols)); [done|].
  intros d _. apply for_each_Return. intros c _. apply cell_of_Return.
Qed.

Section by_key_unique.
Context {K : Type} `{Countable K} {A : Type} (key : A → K).

Lemma by_key_lookup_other (l : list A) (m : gmap K A) k :
  k ∉ key <$> l → foldl (λ m rec, <[key rec := rec]> m) m l !! k = m !! k.
Proof.
  revert m. induction l as [|x l IH]; intros m; [done|].
  rewrite fmap_cons, not_elem_of_cons. intros [Hx Hl]. simpl.
  rewrite IH by done. by rewrite lookup_insert_ne.
Qed.

Lemma by_key_lookup_NoDup (l : list A) (m : gmap K A) r :
  NoDup (key <$> l) → r ∈ l →
  foldl (λ m rec, <[key rec := rec]> m) m l !! key r = Some r.
Proof.
  revert m. induction l as [|x l IH]; intros m; [by intros _ ?%not_elem_of_nil|].
  rewrite fmap_cons, NoDup_cons. intros [Hx Hl] [->|Hr]%elem_of_cons; simpl.
  - rewrite by_key_lookup_other by done. apply lookup_insert_eq.
  - by apply IH.
Qed.
End by_key_unique.

Lemma NoDup_fmap_weaken {A B C} (f : A → B) (g : A → C) l :
  (∀ x y, x ∈ l → y ∈ l → f x = f y → g x = g y) →
  NoDup (g <$> l) → NoDup (f <$> l).
Proof.
  induction l as [|x l IH]; [intros; apply NoDup_nil_2|].
  rewrite !fmap_cons, !NoDup_cons. intros Hfg [Hx Hl]. split.
  - intros (y & Hxy & Hy)%list_elem_of_fmap. apply Hx, list_elem_of_fmap.
    exists y. split; [|done]. apply Hfg; [left|by right|done].
  - apply IH; [|done]. intros y z Hy Hz. apply Hfg; by right.
Qed.

Lemma records_of_keys_NoDup db pid :
  unique_doses db →
  NoDup ((λ r, (Vaccination.dose r, Vaccination.vaccine_id r)) <$> records_of db pid).
Proof.
  intros Huq. apply (NoDup_fmap_weaken _ uq_person_vaccine_dose).
  - intros r1 r2 [_ Hp1]%elem_of_records_of [_ Hp2]%elem_of_records_of [= Hd Hv].
    unfold uq_person_vaccine_dose. congruence.
  - by apply NoDup_fmap_filter.
Qed.

(** In a state the API reaches, the record [r] of a person is what the
    matrix view shows in the row of its dose and the column of its
    vaccine. *)
Lemma cell_at_record db pid r :
  reachable db → r ∈ records_of db pid →
  ∃ d c, DOSE_ORDER !! Dose.to_nat d = Some d
         ∧ c ∈ MatrixCol_of <$> order_by_name (vaccines db)
         ∧ Dose.value d = Vaccination.dose r
         ∧ MatrixCol.vaccine_id c = Vaccination.vaccine_id r
         ∧ cell_at (foldl (λ m rec, <[(Vaccination.dose rec, Vaccination.vaccine_id rec) := rec]> m)
                      ∅ (records_of db pid)) d c
           = Some (MatrixCell.mk (Vaccination.id r) (Vaccination.applied_at r) d).
Proof.
  intros Hdb Hr. pose proof Hr as [Hin _]%elem_of_records_of.
  pose proof (reachable_stored_enums_ok _ Hdb) as [Hdoses _].
  pose proof (reachable_vaccine_fk_ok _ Hdb) as Hfk.
  pose proof (reachable_unique_doses _ Hdb) as Huq.
  unfold vaccine_fk_ok in Hfk. rewrite Forall_forall in Hdoses, Hfk.
  destruct (Hdoses r Hin) as [d Hd%of_value_Some].
  apply Hfk, list_elem_of_fmap in Hin as (v & Hv & Hvin).
  exists d, (MatrixCol_of v). split_and!; [apply DOSE_ORDER_lookup| |done|done|].
  - apply list_elem_of_fmap_2. unfold order_by_name. by rewrite merge_sort_Permutation.
  - unfold cell_at. simpl. rewrite <- Hv, <- Hd.
    rewrite (by_key_lookup_NoDup (λ r, (Vaccination.dose r, Vaccination.vaccine_id r))
               _ _ r (records_of_keys_NoDup _ _ Huq) Hr).
    done.
Qed.

(** X15: the matrix view loses no record.  In every state the API reaches,
    each dose record of an existing person is shown, with its identifier and
    date, in the cell of the row of its dose and the column of its
    vaccine. *)
Theorem X15_matrix_shows_every_record pid format db p r :
  reachable db →
  db_get_Person pid db = (Return (Some p), db) →
  format ≠ "list"%string →
  r ∈ vaccinations db → Vaccination.person_id r = pid →
  ∃ out i j d c,
    get_card pid format db = (Return (CardMatrix out), db)
    ∧ CardMatrixOut.rows out !! i = Some d
    ∧ CardMatrixOut.cols out !! j = Some c
    ∧ Dose.value d = Vaccination.dose r
    ∧ MatrixCol.vaccine_id c = Vaccination.vaccine_id r
    ∧ cell out i j
      = Some (Some (MatrixCell.mk (Vaccination.id r) (Vaccination.applied_at r) d)).
Proof.
  intros Hdb Hp%db_get_Person_Some Hfmt Hr Hpid.
  destruct (cell_at_record db pid r Hdb) as (d & c & Hd & Hc & Hvalue & Hvid & Hcell).
  { by apply elem_of_records_of. }
  apply list_elem_of_lookup_1 in Hc as [j Hj].
  rewrite (get_card_matrix_run _ _ _ _ Hp Hfmt).
  eexists _, (Dose.to_nat d), j, d, c. split; [reflexivity|].
  cbn [CardMatrixOut.rows CardMatrixOut.cols]. split_and!; try done.
  unfold cell. cbn [CardMatrixOut.grid].
  rewrite list_lookup_fmap, Hd. cbn [fmap option_fmap option_map mbind option_bind].
  rewrite list_lookup_fmap, Hj. cbn [fmap option_fmap option_map]. by rewrite Hcell.
Qed.

Lemma X15_matrix_shows_every_record_witness :
  ∃ out i j, cell out i j = Some (Some (MatrixCell.mk "r-4" 45 D2))
             ∧ get_card "p-ana" "matrix" Ex.db2 = (Return (CardMatrix out), Ex.db2).
Proof.
  destruct (X15_matrix_shows_every_record "p-ana" "matrix" Ex.db2
              (Person.mk "p-ana" "Ana Paula" "123" "F" 30)
              (Vaccination.mk "r-4" "p-ana" "v-bcg" "D2" 45 None None 4) reachable_db2)
    as (out & i & j & d & c & Hrun & _ & _ & Hd & _ & Hcell).
  - compute_done.
  - compute_done.
  - vm_compute. do 3 right. left.
  - reflexivity.
  - exists out, i, j. split; [|done]. rewrite Hcell.
    by destruct d; try discriminate Hd.
Defined.

Lemma elem_of_concat {A} (x : A) (ls : list (list A)) :
  x ∈ concat ls ↔ ∃ l, l ∈ ls ∧ x ∈ l.
Proof.
  rewrite list_elem_of_In, in_concat.
  by setoid_rewrite <- list_elem_of_In.
Qed.

Lemma shows_record_id recs es :
  Forall2 shows recs es → CardEntry.record_id <$> es = Vaccination.id <$> recs.
Proof.
  induction 1 as [|r e recs es (Hid & _) _ IH]; [done|].
  by rewrite !fmap_cons, Hid, IH.
Qed.

(** The list view of an existing person, when every stored dose and sex is
    a member's value: one block per item of the dictionary [bucket], in its
    order, showing the item's records. *)
Lemma list_view_blocks pid db p :
  stored_enums_ok db →
  find (λ p, bool_decide (Person.id p = pid)) (people db) = Some p →
  ∃ person blocks,
    get_card pid "list" db = (Return (CardList (CardListOut.mk person blocks)), db)
    ∧ Forall2 (λ item b, CardVaccineBlock.vaccine_id b = fst item
                         ∧ Forall2 shows (snd item) (CardVaccineBlock.entries b))
        (foldl setdefault_append [] (order_by_applied_at (records_of db pid))) blocks.
Proof.
  intros [Hdoses Hsexes] Hp.
  rewrite get_card_run, Hp, bool_decide_eq_true_2 by done.
  set (dict := foldl _ ∅ (vaccines db)).
  set (sorted := order_by_applied_at (records_of db pid)).
  destruct (groups_bucket sorted) as (_ & Hrecs & _).
  destruct (for_each_Forall2 (block_of dict)
              (λ item b, CardVaccineBlock.vaccine_id b = fst item
                         ∧ Forall2 shows (snd item) (CardVaccineBlock.entries b))
              (foldl setdefault_append [] sorted)) as (blocks & -> & Hblocks).
  { intros [k recs] Hitem.
    destruct (block_of_Return dict k recs) as (b & Hb & Hk & _ & Hshows); [|by exists b].
    destruct (Hrecs _ _ Hitem) as [-> _].
    apply Forall_filter_2. rewrite Forall_forall in Hdoses |- *.
    intros r Hr. apply Hdoses. unfold sorted, order_by_applied_at in Hr.
    rewrite merge_sort_Permutation in Hr. by apply elem_of_records_of in Hr as [? _]. }
  apply find_key_Some in Hp as [Hp _].
  rewrite Forall_forall in Hsexes. destruct (Hsexes p Hp) as [sex Hsex].
  unfold PersonOut_of, GenderEnum_. rewrite Hsex. run. by do 2 eexists.
Qed.

(** X16: the two card views show the same records.  In every state the API
    reaches, for an existing person both views are returned, the list view
    shows each of the person's records once, and a record identifier appears
    in the matrix exactly when it appears in the list. *)
Theorem X16_views_show_the_same_records pid db p :
  reachable db →
  db_get_Person pid db = (Return (Some p), db) →
  ∃ l m,
    get_card pid "list" db = (Return (CardList l), db)
    ∧ get_card pid "matrix" db = (Return (CardMatrix m), db)
    ∧ list_record_ids l ≡ₚ Vaccination.id <$> records_of db pid
    ∧ NoDup (list_record_ids l)
    ∧ ∀ rid, rid ∈ matrix_record_ids m ↔ rid ∈ list_record_ids l.
Proof.
  intros Hdb Hp%db_get_Person_Some.
  destruct (list_view_blocks pid db p (reachable_stored_enums_ok _ Hdb) Hp)
    as (person & blocks & Hlist & Hblocks).
  rewrite Hlist, (get_card_matrix_run pid "matrix" db p Hp) by done.
  do 2 eexists. split_and!; [reflexivity..| | |].
  - unfold list_record_ids. cbn [CardListOut.vaccines].
    rewrite (shows_record_id _ _ (blocks_concat _ (λ _ _ H, H) _ _ Hblocks)).
    destruct (groups_bucket (order_by_applied_at (records_of db pid))) as (_ & _ & _ & ->).
    unfold order_by_applied_at. by rewrite merge_sort_Permutation.
  - unfold list_record_ids. cbn [CardListOut.vaccines].
    rewrite (shows_record_id _ _ (blocks_concat _ (λ _ _ H, H) _ _ Hblocks)).
    destruct (groups_bucket (order_by_applied_at (records_of db pid))) as (_ & _ & _ & ->).
    unfold order_by_applied_at. rewrite merge_sort_Permutation.
    apply NoDup_fmap_filter. by destruct (reachable_keys_unique _ Hdb) as (_ & _ & _ & _ & ?).
  - intros rid. unfold list_record_ids at 1. cbn [CardListOut.vaccines].
    rewrite (shows_record_id _ _ (blocks_concat _ (λ _ _ H, H) _ _ Hblocks)).
    destruct (groups_bucket (order_by_applied_at (records_of db pid))) as (_ & _ & _ & ->).
    unfold order_by_applied_at. rewrite merge_sort_Permutation.
    unfold matrix_record_ids. cbn [CardMatrixOut.grid].
    rewrite !list_elem_of_fmap. setoid_rewrite list_elem_of_omap.
    setoid_rewrite elem_of_concat. setoid_rewrite list_elem_of_fmap. split.
    + intros (mc & -> & x & (cells & (d & -> & _) & Hx0) & Hx).
      apply list_elem_of_fmap in Hx0 as (c & -> & _).
      unfold id, cell_at in Hx. apply fmap_Some in Hx as (r & Hr & ->).
      apply by_key_lookup_Some in Hr as [[Hr _]|Hr]; [|by rewrite lookup_empty in Hr].
      by exists r.
    + intros (r & -> & Hr).
      destruct (cell_at_record db pid r Hdb Hr) as (d & c & Hd & Hc & _ & _ & Hcell).
      eexists. split; [|eexists; split; [|exact Hcell]]; [done|].
      eexists. split; [exists d; split; [done|]|].
      * by apply list_elem_of_lookup_2 in Hd.
      * by apply list_elem_of_fmap_2.
Qed.

Lemma X16_views_show_the_same_records_witness :
  ∃ l m, get_card "p-ana" "list" Ex.db2 = (Return (CardList l), Ex.db2)
         ∧ get_card "p-ana" "matrix" Ex.db2 = (Return (CardMatrix m), Ex.db2)
         ∧ ∀ rid, rid ∈ matrix_record_ids m ↔ rid ∈ list_record_ids l.
Proof.
  destruct (X16_views_show_the_same_records "p-ana" Ex.db2
              (Person.mk "p-ana" "Ana Paula" "123" "F" 30) reachable_db2)
    as (l & m & Hl & Hm & _ & _ & Hsame).
  - compute_done.
  - exists l, m. split; [exact Hl|]. split; [exact Hm|exact Hsame].
Defined.

Lemma StronglySorted_sublist {A} (R : relation A) l1 l2 :
  l1 `sublist_of` l2 → StronglySorted R l2 → StronglySorted R l1.
Proof.
  induction 1 as [|x l1 l2 Hsub IH|x l1 l2 Hsub IH]; [done| |].
  - intros [Hl2 Hx]%StronglySorted_inv. constructor; [by apply IH|].
    rewrite Forall_forall in Hx |- *. intros y Hy. by eapply Hx, elem_of_sublist.
  - intros [Hl2 _]%StronglySorted_inv. by apply IH.
Qed.

Lemma firsts_setdefault_append bucket rec :
  Forall (λ item, snd item ≠ []) bucket →
  ∃ new, firsts (setdefault_append bucket rec) = firsts bucket ++ new
         ∧ new `sublist_of` [rec].
Proof.
  induction bucket as [|[vid recs] bucket IH].
  - intros _. by exists [rec].
  - intros [Hrecs Hbucket]%Forall_cons. simpl in Hrecs.
    destruct recs as [|r recs]; [done|]. simpl setdefault_append. case_bool_decide.
    + exists []. split; [by rewrite app_nil_r|apply sublist_nil_l].
    + destruct (IH Hbucket) as (new & Hnew & Hsub). exists new. split; [|done].
      change (r :: firsts (setdefault_append bucket rec) = (r :: firsts bucket) ++ new).
      by rewrite Hnew.
Qed.

Lemma length_firsts bucket :
  Forall (λ item, snd item ≠ []) bucket → length (firsts bucket) = length bucket.
Proof.
  induction 1 as [|[k recs] bucket Hrecs _ IH]; [done|].
  simpl in Hrecs. destruct recs as [|r recs]; [done|].
  change (S (length (firsts bucket)) = S (length bucket)). by rewrite IH.
Qed.

Lemma firsts_foldl l' bucket l :
  groups bucket l → firsts bucket `sublist_of` l →
  firsts (foldl setdefault_append bucket l') `sublist_of` l ++ l'.
Proof.
  revert bucket l. induction l' as [|rec l' IH]; intros bucket l Hg Hsub; simpl.
  - by rewrite app_nil_r.
  - rewrite (cons_middle rec l l'), (assoc_L (++)). apply IH; [by apply groups_step|].
    destruct (firsts_setdefault_append bucket rec) as (new & -> & Hnew).
    { destruct Hg as (_ & Hrecs & _). apply Forall_forall.
      intros [k recs] Hitem. by destruct (Hrecs _ _ Hitem). }
    by apply sublist_app.
Qed.

Lemma firsts_bucket l : firsts (foldl setdefault_append [] l) `sublist_of` l.
Proof.
  apply (firsts_foldl l [] []); [|done].
  split_and!; [apply NoDup_nil_2| | |done].
  - by intros k recs ?%not_elem_of_nil.
  - by intros r ?%not_elem_of_nil.
Qed.

Lemma first_dates_firsts bucket blocks :
  Forall2 (λ item b, CardVaccineBlock.vaccine_id b = fst item
                     ∧ Forall2 shows (snd item) (CardVaccineBlock.entries b))
    bucket blocks →
  omap (λ b, CardEntry.applied_at <$> head (CardVaccineBlock.entries b)) blocks
  = Vaccination.applied_at <$> firsts bucket.
Proof.
  unfold firsts.
  induction 1 as [|[k recs] b bucket blocks [_ Hshows] _ IH]; [done|].
  simpl in Hshows.
  assert (CardEntry.applied_at <$> head (CardVaccineBlock.entries b)
          = Vaccination.applied_at <$> head recs) as Hhead.
  { destruct Hshows as [|r e recs es (_ & _ & Hat & _) _]; simpl; [done|by rewrite Hat]. }
  cbn [omap list_omap snd]. rewrite Hhead, IH. by destruct recs.
Qed.

(** X17: the blocks of the list view come in the order of their first
    dates.  In every state the API reaches, the list view of an existing
    person has one first date per block, and these dates ascend: a vaccine
    whose earliest dose is older comes first. *)
Theorem X17_list_blocks_by_first_date pid db p :
  reachable db →
  db_get_Person pid db = (Return (Some p), db) →
  ∃ out,
    get_card pid "list" db = (Return (CardList out), db)
    ∧ length (first_dates out) = length (CardListOut.vaccines out)
    ∧ Sorted Z.le (first_dates out).
Proof.
  intros Hdb Hp%db_get_Person_Some.
  destruct (list_view_blocks pid db p (reachable_stored_enums_ok _ Hdb) Hp)
    as (person & blocks & Hlist & Hblocks).
  eexists. split; [exact Hlist|]. unfold first_dates. cbn [CardListOut.vaccines].
  rewrite (first_dates_firsts _ _ Hblocks). split.
  - rewrite length_fmap, <- (Forall2_length _ _ _ Hblocks). apply length_firsts.
    destruct (groups_bucket (order_by_applied_at (records_of db pid))) as (_ & Hrecs & _).
    apply Forall_forall. intros [k recs] Hitem. by destruct (Hrecs _ _ Hitem).
  - eapply Sorted_fmap, StronglySorted_Sorted, StronglySorted_sublist;
      [|apply firsts_bucket|apply StronglySorted_merge_sort; apply _].
    by intros r1 r2.
Qed.

Lemma X17_list_blocks_by_first_date_witness :
  ∃ out, get_card "p-ana" "list" Ex.db2 = (Return (CardList out), Ex.db2)
         ∧ Sorted Z.le (first_dates out).
Proof.
  destruct (X17_list_blocks_by_first_date "p-ana" Ex.db2
              (Person.mk "p-ana" "Ana Paula" "123" "F" 30) reachable_db2)
    as (out & Hrun & _ & Hsorted).
  - compute_done.
  - exists out. split; [exact Hrun|exact Hsorted].
Defined.

(** ** Authentication *)

(** X18: when the API key is asked for.  With no key configured, or an
    empty one, [require_api_key] lets every request through, whatever its
    header; with a key configured it lets through exactly the requests whose
    header is that key, and answers 401 to the others, a missing header
    among them. *)
Theorem X18_require_api_key key header :
  (require_api_key key header = Return ()
   ↔ key = None ∨ key = Some EmptyString ∨ header = key)
  ∧ (require_api_key key header = Raise (HTTPException 401 Invalid_or_missing_API_Key)
     ↔ ¬ (key = None ∨ key = Some EmptyString ∨ header = key)).
Proof.
  unfold require_api_key. destruct (truthy key) eqn:Ht.
  - destruct key as [[|a s]|]; try discriminate Ht.
    destruct (decide (header = Some (String a s))) as [Heq|Hne].
    + rewrite bool_decide_eq_false_2 by (by intros ?). simpl. split; split.
      * intros _. by right; right.
      * done.
      * done.
      * intros []. by right; right.
    + rewrite bool_decide_eq_true_2 by done. simpl. split; split.
      * done.
      * by intros [?|[?|?]].
      * intros _. by intros [?|[?|?]].
      * done.
  - simpl. assert (key = None ∨ key = Some EmptyString) as Hkey
      by (destruct key as [[|??]|]; by auto).
    split; split.
    + intros _. tauto.
    + done.
    + done.
    + intros []. tauto.
Qed.

Lemma X18_require_api_key_witness :
  require_api_key (Some "segr3do") None
  = Raise (HTTPException 401 Invalid_or_missing_API_Key).
Proof.
  apply (proj2 (X18_require_api_key (Some "segr3do") None)).
  by intros [?|[?|?]].
Defined.

(** ** Reading *)

Lemma Forall2_fmap_eq {A B C} (f : A → C) (g : B → C) l k :
  Forall2 (λ x y, g y = f x) l k → g <$> k = f <$> l.
Proof. induction 1 as [|x y l k Hxy _ IH]; [done|]. by rewrite !fmap_cons, Hxy, IH. Qed.

(** X19: the reading endpoints never fail on what the API wrote.  In every
    state the API reaches, [list_vaccines] and [list_people] return one
    entry per row, in the order of the table, each vaccine with allowed
    doses that are not empty; and [get_vaccine], [get_person] and
    [get_vaccination] return for every identifier that is in its table. *)
Theorem X19_reads_never_fail db :
  reachable db →
  ∃ vs ps,
    list_vaccines db = (Return vs, db)
    ∧ list_people db = (Return ps, db)
    ∧ VaccineOut.id <$> vs = Vaccine.id <$> vaccines db
    ∧ VaccineOut.code <$> vs = Vaccine.code <$> vaccines db
    ∧ Forall (λ o, VaccineOut.allowed_doses o ≠ []) vs
    ∧ PersonOut.id <$> ps = Person.id <$> people db
    ∧ PersonOut.document <$> ps = Person.document <$> people db
    ∧ (∀ vid, vid ∈ Vaccine.id <$> vaccines db →
              ∃ o, get_vaccine vid db = (Return o, db) ∧ VaccineOut.id o = vid)
    ∧ (∀ pid, pid ∈ Person.id <$> people db →
              ∃ o, get_person pid db = (Return o, db) ∧ PersonOut.id o = pid)
    ∧ (∀ rid, rid ∈ Vaccination.id <$> vaccinations db →
              ∃ o, get_vaccination rid db = (Return o, db) ∧ VaccinationOut.id o = rid).
Proof.
  intros Hdb.
  pose proof (reachable_allowed_doses_ok _ Hdb) as Hallowed.
  pose proof (reachable_stored_enums_ok _ Hdb) as [Hdoses Hsexes].
  unfold allowed_doses_ok in Hallowed.
  rewrite Forall_forall in Hallowed. rewrite Forall_forall in Hdoses.
  rewrite Forall_forall in Hsexes.
  assert (∀ v, v ∈ vaccines db →
            ∃ o, VaccineOut_from_model v = Return o
                 ∧ VaccineOut.id o = Vaccine.id v ∧ VaccineOut.code o = Vaccine.code v
                 ∧ VaccineOut.allowed_doses o ≠ []) as Hv.
  { intros v (d & ds & Htext)%Hallowed.
    rewrite (VaccineOut_from_model_values _ _ Htext). by eexists. }
  assert (∀ p, p ∈ people db →
            ∃ o, PersonOut_of p = Return o
                 ∧ PersonOut.id o = Person.id p
                 ∧ PersonOut.document o = Person.document p) as Hp.
  { intros p [sex Hsex]%Hsexes. unfold PersonOut_of, GenderEnum_. rewrite Hsex.
    by eexists. }
  destruct (for_each_Forall2 VaccineOut_from_model
              (λ v o, VaccineOut.id o = Vaccine.id v ∧ VaccineOut.code o = Vaccine.code v
                      ∧ VaccineOut.allowed_doses o ≠ []) (vaccines db))
    as (vs & Hvs & Hvs2); [done|].
  destruct (for_each_Forall2 PersonOut_of
              (λ p o, PersonOut.id o = Person.id p
                      ∧ PersonOut.document o = Person.document p) (people db))
    as (ps & Hps & Hps2); [done|].
  exists vs, ps. unfold list_vaccines, list_people. run. rewrite Hvs, Hps.
  split_and!; try done.
  - apply Forall2_fmap_eq. eapply Forall2_impl; [done|]. by intros ?? (? & _).
  - apply Forall2_fmap_eq. eapply Forall2_impl; [done|]. by intros ?? (_ & ? & _).
  - clear -Hvs2. induction Hvs2 as [|???? (_ & _ & ?)]; by constructor.
  - apply Forall2_fmap_eq. eapply Forall2_impl; [done|]. by intros ?? (? & _).
  - apply Forall2_fmap_eq. eapply Forall2_impl; [done|]. by intros ?? (_ & ?).
  - intros vid [v Hfind]%find_key_is_Some. unfold get_vaccine, db_get_Vaccine. run.
    rewrite Hfind. apply find_key_Some in Hfind as [Hin <-].
    destruct (Hv v Hin) as (o & -> & ? & _). by exists o.
  - intros pid [p Hfind]%find_key_is_Some. unfold get_person, db_get_Person. run.
    rewrite Hfind. apply find_key_Some in Hfind as [Hin <-].
    destruct (Hp p Hin) as (o & -> & ? & _). by exists o.
  - intros rid [r Hfind]%find_key_is_Some. unfold get_vaccination, db_get_Vaccination. run.
    rewrite Hfind. apply find_key_Some in Hfind as [Hin <-].
    destruct (Hdoses r Hin) as [d Hd]. unfold VaccinationOut_of, DoseEnum_. rewrite Hd.
    by eexists.
Qed.

Lemma X19_reads_never_fail_witness :
  ∃ vs, list_vaccines Ex.db2 = (Return vs, Ex.db2)
        ∧ VaccineOut.code <$> vs = Vaccine.code <$> vaccines Ex.db2.
Proof.
  destruct (X19_reads_never_fail Ex.db2 reachable_db2) as (vs & ps & Hvs & _ & _ & Hcodes & _).
  exists vs. split; [exact Hvs|exact Hcodes].
Defined.

(** X20: nobody holds more than five records of a vaccine.  In every state
    the API reaches, the records of one person for one vaccine carry
    pairwise different dose values, all of them values of [DOSE_ORDER], so
    there are at most five of them. *)
Theorem X20_at_most_five_doses db pid vid :
  reachable db →
  let history := filter (λ r, Vaccination.person_id r = pid
                              ∧ Vaccination.vaccine_id r = vid) (vaccinations db) in
  NoDup (Vaccination.dose <$> history)
  ∧ Forall (λ r, Vaccination.dose r ∈ Dose.value <$> DOSE_ORDER) history
  ∧ (length history ≤ 5)%nat.
Proof.
  intros Hdb history.
  pose proof (reachable_unique_doses _ Hdb) as Huq.
  pose proof (reachable_stored_enums_ok _ Hdb) as [Hdoses _].
  assert (NoDup (Vaccination.dose <$> history)) as Hnd.
  { apply (NoDup_fmap_weaken _ uq_person_vaccine_dose); [|by apply NoDup_fmap_filter].
    intros r1 r2 [[? ?] _]%list_elem_of_filter [[? ?] _]%list_elem_of_filter Hd.
    unfold uq_person_vaccine_dose. congruence. }
  assert (Forall (λ r, Vaccination.dose r ∈ Dose.value <$> DOSE_ORDER) history) as Hin.
  { apply Forall_filter_2. eapply Forall_impl; [done|].
    intros r [d ->%of_value_Some]. apply list_elem_of_fmap_2.
    apply list_elem_of_lookup. exists (Dose.to_nat d). apply DOSE_ORDER_lookup. }
  split_and!; [done..|].
  rewrite <- (length_fmap Vaccination.dose).
  change 5%nat with (length (Dose.value <$> DOSE_ORDER)).
  apply submseteq_length, NoDup_submseteq; [done|].
  rewrite Forall_forall in Hin. by intros x (r & -> & Hr%Hin)%list_elem_of_fmap.
Qed.

Lemma X20_at_most_five_doses_witness :
  (length (filter (λ r, Vaccination.person_id r = "p-ana"
                        ∧ Vaccination.vaccine_id r = "v-hepb") (vaccinations Ex.db2)) ≤ 5)%nat.
Proof. apply (X20_at_most_five_doses Ex.db2 "p-ana" "v-hepb" reachable_db2). Defined.

(** ** Seeding the catalog *)

Lemma handle_POST_vaccines payload uuid4 db :
  handle (POST_vaccines payload uuid4) db =
  if decide (VaccineIn.code payload ∈ Vaccine.code <$> vaccines db) then db
  else if decide (uuid4 ∈ Vaccine.id <$> vaccines db) then db
  else mkDB (people db) (vaccines db ++ [vaccine_of payload uuid4]) (vaccinations db).
Proof.
  simpl. unfold tables_after. rewrite create_vaccine_run. by repeat case_decide.
Qed.

Lemma serve_cons req reqs db : serve (req :: reqs) db = serve reqs (handle req db).
Proof. done. Qed.

Lemma seed_grows payloads uuids db :
  (∀ c, c ∈ Vaccine.code <$> vaccines db →
        c ∈ Vaccine.code <$> vaccines (serve (zip_with POST_vaccines payloads uuids) db))
  ∧ people (serve (zip_with POST_vaccines payloads uuids) db) = people db
  ∧ vaccinations (serve (zip_with POST_vaccines payloads uuids) db) = vaccinations db.
Proof.
  revert uuids db. induction payloads as [|payload payloads IH]; intros [|u uuids] db;
    try done.
  cbn [zip_with]. rewrite serve_cons.
  destruct (IH uuids (handle (POST_vaccines payload u) db)) as (Hcodes & Hpeople & Hrecords).
  rewrite Hpeople, Hrecords. clear Hpeople Hrecords.
  split_and!.
  - intros c Hc. apply Hcodes. rewrite handle_POST_vaccines.
    repeat case_decide; try done.
    simpl. rewrite fmap_app, elem_of_app. by left.
  - rewrite handle_POST_vaccines. by repeat case_decide.
  - rewrite handle_POST_vaccines. by repeat case_decide.
Qed.

Lemma seed_covers payloads uuids db :
  length uuids = length payloads →
  NoDup uuids →
  (∀ u, u ∈ uuids → u ∉ Vaccine.id <$> vaccines db) →
  ∀ payload, payload ∈ payloads →
    VaccineIn.code payload
    ∈ Vaccine.code <$> vaccines (serve (zip_with POST_vaccines payloads uuids) db).
Proof.
  revert uuids db. induction payloads as [|p payloads IH]; intros [|u uuids] db;
    try done; [by intros _ _ _ ? ?%not_elem_of_nil|].
  intros [= Hlen] [Hu Hnd]%NoDup_cons Hfresh payload Hin.
  cbn [zip_with]. rewrite serve_cons.
  set (db1 := handle (POST_vaccines p u) db).
  assert (VaccineIn.code p ∈ Vaccine.code <$> vaccines db1
          ∧ ∀ u', u' ∈ uuids → u' ∉ Vaccine.id <$> vaccines db1) as [Hp Hfresh1].
  { unfold db1. rewrite handle_POST_vaccines. case_decide as Hcode.
    { split; [done|]. intros u' Hu'. apply Hfresh. by right. }
    rewrite decide_False by (apply Hfresh; left). simpl. split.
    - rewrite fmap_app, elem_of_app. right. by apply list_elem_of_singleton.
    - intros u' Hu'. rewrite fmap_app, elem_of_app. cbn [fmap list_fmap vaccine_of Vaccine.id].
      rewrite list_elem_of_singleton.
      intros [Hold| ->]; [|done]. by apply (Hfresh u'); [right|]. }
  apply elem_of_cons in Hin as [->|Hin].
  - by apply seed_grows.
  - by apply IH.
Qed.

Lemma seed_again payloads uuids db :
  (∀ payload, payload ∈ payloads → VaccineIn.code payload ∈ Vaccine.code <$> vaccines db) →
  serve (zip_with POST_vaccines payloads uuids) db = db.
Proof.
  revert uuids. induction payloads as [|p payloads IH]; intros [|u uuids] Hcodes; try done.
  cbn [zip_with]. rewrite serve_cons.
  rewrite handle_POST_vaccines, decide_True by (apply Hcodes; left).
  apply IH. intros payload Hin. apply Hcodes. by right.
Qed.

(** X21: seeding the catalog is complete and can be repeated.  Posting a
    list of vaccines with fresh, distinct identifiers leaves every code of
    the list in the catalog, keeps the codes that were there and touches
    neither people nor dose records; posting the same list again, with any
    identifiers, changes nothing. *)
Theorem X21_seeding payloads uuids db :
  length uuids = length payloads →
  NoDup uuids →
  (∀ u, u ∈ uuids → u ∉ Vaccine.id <$> vaccines db) →
  let db' := serve (zip_with POST_vaccines payloads uuids) db in
  (∀ payload, payload ∈ payloads →
     VaccineIn.code payload ∈ Vaccine.code <$> vaccines db')
  ∧ (∀ c, c ∈ Vaccine.code <$> vaccines db → c ∈ Vaccine.code <$> vaccines db')
  ∧ people db' = people db
  ∧ vaccinations db' = vaccinations db
  ∧ ∀ uuids', serve (zip_with POST_vaccines payloads uuids') db' = db'.
Proof.
  intros Hlen Hnd Hfresh db'.
  pose proof (seed_covers payloads uuids db Hlen Hnd Hfresh) as Hcovers.
  destruct (seed_grows payloads uuids db) as (Hgrows & Hpeople & Hrecords).
  split_and!; try done. intros uuids'. by apply seed_again.
Qed.

Lemma X21_seeding_witness :
  "rotavirus" ∈ Vaccine.code
    <$> vaccines (serve (zip_with POST_vaccines
                           [VaccineIn.mk "BCG" "bcg" None;
                            VaccineIn.mk "ROTAVIRUS" "rotavirus" None]
                           ["v-1"; "v-2"]) Ex.db2).
Proof.
  assert (∀ u, u ∈ ["v-1"; "v-2"] → u ∉ Vaccine.id <$> vaccines Ex.db2) as Hfresh.
  { intros u Hu. apply (Forall_forall (λ u, u ∉ Vaccine.id <$> vaccines Ex.db2)
                          ["v-1"; "v-2"]); [compute_done|exact Hu]. }
  apply (proj1 (X21_seeding [VaccineIn.mk "BCG" "bcg" None;
                             VaccineIn.mk "ROTAVIRUS" "rotavirus" None]
                  ["v-1"; "v-2"] Ex.db2 eq_refl ltac:(compute_done) Hfresh)
           (VaccineIn.mk "ROTAVIRUS" "rotavirus" None)).
  right. left.
Defined.
